(** * LumeButton: attribute-to-render reconciliation and interaction gate

    A shallow embedding of [src/cdn.js] (the [LumeButton] custom element).
    The element's attribute bag is a finite map, the instance and the part
    of the host document it touches are one explicit store ([World]), and
    every method of the class is a function on that store.  Methods that can
    raise (a [TypeError] from an assignment, an exception from the
    author-supplied click handler) live in a small exception-and-state
    monad; [try_catch] is the source's [try { } catch]. *)

From Stdlib Require Import PrimFloat.
From Stdlib Require Import String Ascii List ZArith Lia.
From stdpp Require Import gmap strings.
Import ListNotations.

Local Open Scope string_scope.

(** ** JavaScript values and strings *)

(** The primitive values the property surface of the component is written
    with: boolean flags, strings, and the two nullish values. *)
Inductive Value : Type :=
| VUndefined
| VNull
| VBool (b : bool)
| VStr (s : string).

(** ECMAScript [ToBoolean]. *)
Definition truthy (v : Value) : bool :=
  match v with
  | VUndefined | VNull => false
  | VBool b => b
  | VStr s => negb (String.eqb s "")
  end.

(** ECMAScript [ToString]; [setAttribute] applies it to its value. *)
Definition ToString (v : Value) : string :=
  match v with
  | VUndefined => "undefined"
  | VNull => "null"
  | VBool true => "true"
  | VBool false => "false"
  | VStr s => s
  end.

(** [getAttribute] returns a string or [null]; this is its view as a value. *)
Definition of_attr (o : option string) : Value :=
  match o with
  | Some s => VStr s
  | None => VNull
  end.

(** Truthiness of a [string | null]. *)
Definition truthy_attr (o : option string) : bool := truthy (of_attr o).

(** [a || d] for [a : string | null] and a string default [d]. *)
Definition or_default (o : option string) (d : string) : string :=
  match o with
  | Some s => if String.eqb s "" then d else s
  | None => d
  end.

(** [Array.prototype.includes] on an array of strings. *)
Definition includes (l : list string) (v : string) : bool :=
  existsb (String.eqb v) l.

(** [Array.prototype.join]. *)
Fixpoint join (sep : string) (l : list string) : string :=
  match l with
  | [] => ""
  | [x] => x
  | x :: rest => x ++ sep ++ join sep rest
  end.

(** The double-quote character, as a one-character string. *)
Definition dq : string := String (ascii_of_nat 34) EmptyString.

(** ** The store *)

(** JavaScript numbers are IEEE 754 binary64 values: the kernel's [float],
    with the same round-to-nearest arithmetic. *)

(** [Math.max] of two numbers: [NaN] when either is, and [+0] above
    [-0]. *)
Definition Math_max (a b : float) : float :=
  if PrimFloat.is_nan a || PrimFloat.is_nan b then PrimFloat.nan
  else if PrimFloat.ltb a b then b
  else if PrimFloat.ltb b a then a
  else if PrimFloat.get_sign a then b else a.

(** The DOM event handed to a listener.  It is a mutable object shared by
    the listener and the click handler it may call, so it lives in the
    store.  [preventDefault] only sets the canceled flag of a cancelable
    event.  The pointer position is read by [createRipple] only, on click
    events. *)
Record Event : Type := mkEvent {
  key : option string;
  cancelable : bool;
  defaultPrevented : bool;
  propagationStopped : bool;
  clientX : float;
  clientY : float
}.

(** [DOMRect], as returned by [getBoundingClientRect]. *)
Record Rect : Type := mkRect {
  rect_left : float;
  rect_top : float;
  rect_width : float;
  rect_height : float
}.

(** A ripple [<span>]: the element it was appended to and the four numbers
    [createRipple] computes for its inline style.  The code assigns each
    of them, followed by ["px"], to the style property of the same
    name. *)
Record Ripple : Type := mkRipple {
  ripple_id : nat;
  parentNode : nat;
  style_width : float;
  style_height : float;
  style_left : float;
  style_top : float
}.

(** The [detail] of the [lume-click] event ([button] is the instance and
    [originalEvent] the event in the store). *)
Record Detail : Type := mkDetail {
  detail_href : option string;
  detail_variant : string;
  detail_size : string
}.

(** Calls into the host environment, in the order they are made. *)
Inductive Effect : Type :=
| EPreventDefault
| EStopPropagation
| ENewFunction (body : string)
| ECall
| EConsoleError (msg : string) (error : string)
| EWindowOpen (url target features : string)
| ELocationHref (url : string)
| EDispatchEvent (type : string) (bubbles composed : bool) (detail : Detail).

(** One instance together with the host state it reads and writes.
    Elements and function objects are identified by numbers drawn from
    [fresh]. *)
Record World : Type := mkWorld {
  attributes : gmap string string;      (* the attribute bag *)
  ownProps : gmap string Value;         (* own data properties of the instance *)
  _initialized : bool;
  _instanceId : option string;
  _rippleCleanup : option (nat * nat);  (* closure over (btn, rippleHandler) *)
  innerHTML : string;                   (* shadowRoot.innerHTML as last written *)
  btn : option nat;                     (* shadowRoot.querySelector(".btn") *)
  hostClick : bool;                     (* handleClick listens on "click" *)
  hostKeydown : bool;                   (* handleKeydown listens on "keydown" *)
  clickListeners : list (nat * nat);    (* (element, listener) for "click" on rendered elements *)
  ripples : list Ripple;                (* ripple spans that have a parent *)
  timers : list (Z * nat);              (* pending timeouts: (delay in ms, ripple) *)
  rects : nat -> Rect;                  (* layout: bounding rectangle of each element *)
  fresh : nat;
  randomCalls : nat;                    (* number of Math.random() calls so far *)
  event : Event;
  trace : list Effect
}.

(** Field updates. *)
Definition set_attributes (x : gmap string string) (w : World) : World :=
  mkWorld x (ownProps w) (_initialized w) (_instanceId w) (_rippleCleanup w)
    (innerHTML w) (btn w) (hostClick w) (hostKeydown w) (clickListeners w)
    (ripples w) (timers w) (rects w) (fresh w) (randomCalls w) (event w)
    (trace w).

Definition set_ownProps (x : gmap string Value) (w : World) : World :=
  mkWorld (attributes w) x (_initialized w) (_instanceId w)
    (_rippleCleanup w) (innerHTML w) (btn w) (hostClick w) (hostKeydown w)
    (clickListeners w) (ripples w) (timers w) (rects w) (fresh w)
    (randomCalls w) (event w) (trace w).

Definition set_initialized (x : bool) (w : World) : World :=
  mkWorld (attributes w) (ownProps w) x (_instanceId w) (_rippleCleanup w)
    (innerHTML w) (btn w) (hostClick w) (hostKeydown w) (clickListeners w)
    (ripples w) (timers w) (rects w) (fresh w) (randomCalls w) (event w)
    (trace w).

Definition set_instanceId (x : option string) (w : World) : World :=
  mkWorld (attributes w) (ownProps w) (_initialized w) x (_rippleCleanup w)
    (innerHTML w) (btn w) (hostClick w) (hostKeydown w) (clickListeners w)
    (ripples w) (timers w) (rects w) (fresh w) (randomCalls w) (event w)
    (trace w).

Definition set_rippleCleanup (x : option (nat * nat)) (w : World) : World :=
  mkWorld (attributes w) (ownProps w) (_initialized w) (_instanceId w) x
    (innerHTML w) (btn w) (hostClick w) (hostKeydown w) (clickListeners w)
    (ripples w) (timers w) (rects w) (fresh w) (randomCalls w) (event w)
    (trace w).

Definition set_innerHTML (x : string) (w : World) : World :=
  mkWorld (attributes w) (ownProps w) (_initialized w) (_instanceId w)
    (_rippleCleanup w) x (btn w) (hostClick w) (hostKeydown w)
    (clickListeners w) (ripples w) (timers w) (rects w) (fresh w)
    (randomCalls w) (event w) (trace w).

Definition set_btn (x : option nat) (w : World) : World :=
  mkWorld (attributes w) (ownProps w) (_initialized w) (_instanceId w)
    (_rippleCleanup w) (innerHTML w) x (hostClick w) (hostKeydown w)
    (clickListeners w) (ripples w) (timers w) (rects w) (fresh w)
    (randomCalls w) (event w) (trace w).

Definition set_hostClick (x : bool) (w : World) : World :=
  mkWorld (attributes w) (ownProps w) (_initialized w) (_instanceId w)
    (_rippleCleanup w) (innerHTML w) (btn w) x (hostKeydown w)
    (clickListeners w) (ripples w) (timers w) (rects w) (fresh w)
    (randomCalls w) (event w) (trace w).

Definition set_hostKeydown (x : bool) (w : World) : World :=
  mkWorld (attributes w) (ownProps w) (_initialized w) (_instanceId w)
    (_rippleCleanup w) (innerHTML w) (btn w) (hostClick w) x
    (clickListeners w) (ripples w) (timers w) (rects w) (fresh w)
    (randomCalls w) (event w) (trace w).

Definition set_clickListeners (x : list (nat * nat)) (w : World) : World :=
  mkWorld (attributes w) (ownProps w) (_initialized w) (_instanceId w)
    (_rippleCleanup w) (innerHTML w) (btn w) (hostClick w) (hostKeydown w) x
    (ripples w) (timers w) (rects w) (fresh w) (randomCalls w) (event w)
    (trace w).

Definition set_ripples (x : list Ripple) (w : World) : World :=
  mkWorld (attributes w) (ownProps w) (_initialized w) (_instanceId w)
    (_rippleCleanup w) (innerHTML w) (btn w) (hostClick w) (hostKeydown w)
    (clickListeners w) x (timers w) (rects w) (fresh w) (randomCalls w)
    (event w) (trace w).

Definition set_timers (x : list (Z * nat)) (w : World) : World :=
  mkWorld (attributes w) (ownProps w) (_initialized w) (_instanceId w)
    (_rippleCleanup w) (innerHTML w) (btn w) (hostClick w) (hostKeydown w)
    (clickListeners w) (ripples w) x (rects w) (fresh w) (randomCalls w)
    (event w) (trace w).

Definition set_fresh (x : nat) (w : World) : World :=
  mkWorld (attributes w) (ownProps w) (_initialized w) (_instanceId w)
    (_rippleCleanup w) (innerHTML w) (btn w) (hostClick w) (hostKeydown w)
    (clickListeners w) (ripples w) (timers w) (rects w) x (randomCalls w)
    (event w) (trace w).

Definition set_randomCalls (x : nat) (w : World) : World :=
  mkWorld (attributes w) (ownProps w) (_initialized w) (_instanceId w)
    (_rippleCleanup w) (innerHTML w) (btn w) (hostClick w) (hostKeydown w)
    (clickListeners w) (ripples w) (timers w) (rects w) (fresh w) x
    (event w) (trace w).

Definition set_event (x : Event) (w : World) : World :=
  mkWorld (attributes w) (ownProps w) (_initialized w) (_instanceId w)
    (_rippleCleanup w) (innerHTML w) (btn w) (hostClick w) (hostKeydown w)
    (clickListeners w) (ripples w) (timers w) (rects w) (fresh w)
    (randomCalls w) x (trace w).

Definition set_trace (x : list Effect) (w : World) : World :=
  mkWorld (attributes w) (ownProps w) (_initialized w) (_instanceId w)
    (_rippleCleanup w) (innerHTML w) (btn w) (hostClick w) (hostKeydown w)
    (clickListeners w) (ripples w) (timers w) (rects w) (fresh w)
    (randomCalls w) (event w) x.

Definition log (e : Effect) (w : World) : World :=
  set_trace (trace w ++ [e])%list w.

(** ** Completions: normal return or a thrown exception *)

Inductive Completion (A : Type) : Type :=
| Normal (a : A)
| Throw (error : string).

Arguments Normal {A} a.
Arguments Throw {A} error.

Definition M (A : Type) : Type := World -> Completion A * World.

Definition ret {A : Type} (a : A) : M A := fun w => (Normal a, w).

Definition bind {A B : Type} (m : M A) (k : A -> M B) : M B :=
  fun w =>
    match m w with
    | (Normal a, w') => k a w'
    | (Throw e, w') => (Throw e, w')
    end.

Definition throw {A : Type} (e : string) : M A := fun w => (Throw e, w).

(** [try { body } catch (error) { handler error }]. *)
Definition try_catch {A : Type} (body : M A) (handler : string -> M A) : M A :=
  fun w =>
    match body w with
    | (Normal a, w') => (Normal a, w')
    | (Throw e, w') => handler e w'
    end.

(** A statement that cannot throw. *)
Definition lift (f : World -> World) : M unit := fun w => (Normal tt, f w).

Notation "m1 >> m2" := (bind m1 (fun _ => m2))
  (at level 61, left associativity).

(** The state a computation leaves behind, and whether it returned. *)
Definition state_of {A : Type} (r : Completion A * World) : World := snd r.

Definition returned {A : Type} (r : Completion A * World) : bool :=
  match fst r with
  | Normal _ => true
  | Throw _ => false
  end.

(** ** Attributes and the configuration getters *)

Definition observedAttributes : list string :=
  [ "variant"; "size"; "disabled"; "href"; "target"; "color"; "bg-color";
    "hover-color"; "hover-bg-color"; "active-color"; "active-bg-color";
    "border"; "radius"; "padding"; "font-size"; "font-weight"; "width";
    "height"; "glow-color"; "shadow"; "onclick-handler"; "loading";
    "full-width" ].

(** The attribute bag is keyed by the names as the element stores them.
    In an HTML document [setAttribute], [getAttribute], [hasAttribute] and
    [removeAttribute] lower-case the name they are given, and
    [setAttribute] throws an [InvalidCharacterError] for a name that is not
    a valid attribute name.  The functions of this file are these methods
    for a name that is valid and already lower-case, as every name the
    class itself passes is.  [plain_name] is a sufficient test for a name
    that comes from outside: a lower-case letter followed by lower-case
    letters, digits and hyphens. *)
Definition lower_case_letter (c : ascii) : bool :=
  Nat.leb 97 (nat_of_ascii c) && Nat.leb (nat_of_ascii c) 122.

Definition plain_char (c : ascii) : bool :=
  lower_case_letter c ||
  (Nat.leb 48 (nat_of_ascii c) && Nat.leb (nat_of_ascii c) 57) ||
  Nat.eqb (nat_of_ascii c) 45.

Fixpoint all_plain (s : string) : bool :=
  match s with
  | EmptyString => true
  | String c rest => plain_char c && all_plain rest
  end.

Definition plain_name (s : string) : bool :=
  match s with
  | EmptyString => false
  | String c rest => lower_case_letter c && all_plain rest
  end.

Definition getAttribute (name : string) (w : World) : option string :=
  attributes w !! name.

Definition hasAttribute (name : string) (w : World) : bool :=
  match attributes w !! name with
  | Some _ => true
  | None => false
  end.

Definition validVariants : list string :=
  [ "primary"; "secondary"; "outlined"; "ghost"; "glow"; "icon-btn"; "link" ].

Definition validSizes : list string := [ "small"; "medium"; "large" ].

Definition validTargets : list string := [ "_self"; "_blank"; "_parent"; "_top" ].

(** The body shared by the three enum getters: [raw || dflt], then the
    membership test. *)
Definition resolve (valid : list string) (dflt : string) (raw : option string)
  : string :=
  let value := or_default raw dflt in
  if includes valid value then value else dflt.

Definition get_variant (w : World) : string :=
  resolve validVariants "primary" (getAttribute "variant" w).

Definition get_size (w : World) : string :=
  resolve validSizes "medium" (getAttribute "size" w).

Definition get_disabled (w : World) : bool := hasAttribute "disabled" w.
Definition get_loading (w : World) : bool := hasAttribute "loading" w.
Definition get_fullWidth (w : World) : bool := hasAttribute "full-width" w.
Definition get_href (w : World) : option string := getAttribute "href" w.

Definition get_target (w : World) : string :=
  resolve validTargets "_self" (getAttribute "target" w).

Definition get_color (w : World) := getAttribute "color" w.
Definition get_bgColor (w : World) := getAttribute "bg-color" w.
Definition get_hoverColor (w : World) := getAttribute "hover-color" w.
Definition get_hoverBgColor (w : World) := getAttribute "hover-bg-color" w.
Definition get_activeColor (w : World) := getAttribute "active-color" w.
Definition get_activeBgColor (w : World) := getAttribute "active-bg-color" w.
Definition get_border (w : World) := getAttribute "border" w.
Definition get_radius (w : World) := getAttribute "radius" w.
Definition get_padding (w : World) := getAttribute "padding" w.
Definition get_fontSize (w : World) := getAttribute "font-size" w.
Definition get_fontWeight (w : World) := getAttribute "font-weight" w.
Definition get_width (w : World) := getAttribute "width" w.
Definition get_height (w : World) := getAttribute "height" w.
Definition get_glowColor (w : World) := getAttribute "glow-color" w.
Definition get_shadow (w : World) := getAttribute "shadow" w.
Definition get_onclickHandler (w : World) := getAttribute "onclick-handler" w.

(** The gate: [this.disabled || this.loading]. *)
Definition gated (w : World) : bool := get_disabled w || get_loading w.

(** ** Reads through [this]

    Inside a method, [this.disabled], [this.bgColor], [this.render] and
    the like are property look-ups on the instance: the accessor, method
    or field of the class answers, unless the instance carries an own data
    property of that name, which then shadows it.  Such a property exists
    when a script assigned to the name before the element was upgraded,
    or assigns to a name for which the class has no setter.

    [this_members] lists every name the class looks up on [this]: its
    accessors, its methods, the fields its constructor creates and the
    members it inherits from the DOM.  An instance is [unshadowed] when
    [ownProps] has no entry under any of them.  On an unshadowed instance
    every look-up is answered by the class, which is what the getters
    above and the methods below compute. *)
Definition this_members : list string :=
  [ "variant"; "size"; "disabled"; "loading"; "fullWidth"; "href"; "target";
    "color"; "bgColor"; "hoverColor"; "hoverBgColor"; "activeColor";
    "activeBgColor"; "border"; "radius"; "padding"; "fontSize"; "fontWeight";
    "width"; "height"; "glowColor"; "shadow"; "onclickHandler";
    "_upgradeProperties"; "setupEventListeners"; "removeEventListeners";
    "handleKeydown"; "handleClick"; "generateInlineStyles"; "getInstanceId";
    "render"; "setupRippleEffect"; "createRipple"; "click"; "focus"; "blur";
    "setDisabled"; "setLoading"; "updateStyle"; "validate";
    "_initialized"; "_instanceId"; "_rippleCleanup";
    "constructor"; "hasOwnProperty"; "attachShadow"; "shadowRoot";
    "getAttribute"; "setAttribute"; "removeAttribute"; "hasAttribute";
    "addEventListener"; "removeEventListener"; "dispatchEvent" ].

Definition unshadowed (w : World) : bool :=
  forallb (fun name => match ownProps w !! name with
                       | None => true
                       | Some _ => false
                       end) this_members.


(** [this.disabled] and [this.loading] as any value: the own data property
    when there is one, the getter's boolean otherwise. *)
Definition this_disabled (w : World) : Value :=
  match ownProps w !! "disabled" with
  | Some v => v
  | None => VBool (get_disabled w)
  end.

Definition this_loading (w : World) : Value :=
  match ownProps w !! "loading" with
  | Some v => v
  | None => VBool (get_loading w)
  end.

(** ** Generated styles *)

(** [if (v) styles.push(`pre${v}post`)] as the list of pushed items. *)
Definition pushed (v : option string) (pre post : string) : list string :=
  if truthy_attr v then [pre ++ ToString (of_attr v) ++ post] else [].

(** The ten reads [this.color], [this.bgColor], ... are taken as the
    getters; so are the reads of [template] and of the handlers below. *)
Definition generateInlineStyles (w : World) : string :=
  let styles := (
    pushed (get_color w) "color: " "" ++
    pushed (get_bgColor w) "background: " "" ++
    pushed (get_border w) "border: " " !important" ++
    pushed (get_radius w) "border-radius: " " !important" ++
    pushed (get_padding w) "padding: " " !important" ++
    pushed (get_fontSize w) "font-size: " " !important" ++
    pushed (get_fontWeight w) "font-weight: " " !important" ++
    pushed (get_width w) "width: " " !important" ++
    pushed (get_height w) "height: " " !important" ++
    pushed (get_shadow w) "box-shadow: " " !important")%list in
  join "; " styles.

(** [`${v ? `pre${v}post` : ""}`]. *)
Definition rule_if (v : option string) (pre post : string) : string :=
  if truthy_attr v then pre ++ ToString (of_attr v) ++ post else "".

Definition glowEffect (w : World) : string :=
  if String.eqb (get_variant w) "glow" then
    let glowColor := or_default (get_glowColor w) "rgba(37, 99, 235, 0.5)" in
    "
        .btn.variant-glow {
          box-shadow: 0 0 20px " ++ glowColor ++ " !important;
        }
        .btn.variant-glow:hover:not(.disabled):not(.loading) {
          box-shadow: 0 0 30px " ++ glowColor ++ " !important;
        }
      "
  else "".

Definition customHoverActiveStyles (instanceId : string) (w : World) : string :=
  "
      /* Custom hover styles with higher specificity */
      .btn." ++ instanceId ++ ":hover:not(.disabled):not(.loading) {
        " ++ rule_if (get_hoverColor w) "color: " " !important;" ++ "
        " ++ rule_if (get_hoverBgColor w) "background: " " !important;" ++ "
      }
      
      /* Custom active styles with higher specificity */
      .btn." ++ instanceId ++ ":active:not(.disabled):not(.loading) {
        " ++ rule_if (get_activeColor w) "color: " " !important;" ++ "
        " ++ rule_if (get_activeBgColor w) "background: " " !important;" ++ "
      }
    ".

(** The literal rule text of the template between the [display]
    declaration and the glow placeholder. *)
Definition css_palette : string :=
";
          --primary-bg: #2563eb;
          --primary-color: #ffffff;
          --primary-hover-bg: #1d4ed8;
          --primary-active-bg: #1e40af;
          
          --secondary-bg: #6b7280;
          --secondary-color: #ffffff;
          --secondary-hover-bg: #4b5563;
          --secondary-active-bg: #374151;
          
          --outlined-bg: transparent;
          --outlined-color: #2563eb;
          --outlined-border: 1px solid #2563eb;
          --outlined-hover-bg: #2563eb;
          --outlined-hover-color: #ffffff;
          
          --ghost-bg: transparent;
          --ghost-color: #374151;
          --ghost-hover-bg: #f3f4f6;
          --ghost-active-bg: #e5e7eb;
          
          --link-bg: transparent;
          --link-color: #2563eb;
          --link-hover-color: #1d4ed8;
        }

        :host([hidden]) {
          display: none !important;
        }

        :host([full-width]) .btn {
          width: 100%;
        }

        .btn {
          display: inline-flex;
          align-items: center;
          justify-content: center;
          gap: 0.5rem;
          position: relative;
          overflow: hidden;
          
          font-family: 'Inter', -apple-system, BlinkMacSystemFont, 'Segoe UI', Roboto, sans-serif;
          font-weight: 500;
          text-decoration: none;
          text-align: center;
          white-space: nowrap;
          user-select: none;
          vertical-align: middle;
          line-height: 1.2;
          
          min-width: 0;
          border: 1px solid transparent;
          border-radius: 0.5rem;
          
          cursor: pointer;
          transition: all 0.15s ease-in-out;
          outline: none;
        }

        /* Size variants */
        .size-small {
          font-size: 0.875rem;
          padding: 0.375rem 0.75rem;
          min-height: 2rem;
        }

        .size-medium {
          font-size: 1rem;
          padding: 0.5rem 1rem;
          min-height: 2.5rem;
        }

        .size-large {
          font-size: 1.125rem;
          padding: 0.75rem 1.5rem;
          min-height: 3rem;
        }

        /* Variant styles */
        .variant-primary {
          background-color: var(--primary-bg);
          color: var(--primary-color);
          border-color: var(--primary-bg);
        }

        .variant-primary:hover:not(.disabled):not(.loading) {
          background-color: var(--primary-hover-bg);
          border-color: var(--primary-hover-bg);
          transform: translateY(-1px);
        }

        .variant-primary:active:not(.disabled):not(.loading) {
          background-color: var(--primary-active-bg);
          border-color: var(--primary-active-bg);
          transform: translateY(0);
        }

        .variant-secondary {
          background-color: var(--secondary-bg);
          color: var(--secondary-color);
          border-color: var(--secondary-bg);
        }

        .variant-secondary:hover:not(.disabled):not(.loading) {
          background-color: var(--secondary-hover-bg);
          border-color: var(--secondary-hover-bg);
          transform: translateY(-1px);
        }

        .variant-secondary:active:not(.disabled):not(.loading) {
          background-color: var(--secondary-active-bg);
          border-color: var(--secondary-active-bg);
          transform: translateY(0);
        }

        .variant-outlined {
          background-color: var(--outlined-bg);
          color: var(--outlined-color);
          border: var(--outlined-border);
        }

        .variant-outlined:hover:not(.disabled):not(.loading) {
          background-color: var(--outlined-hover-bg);
          color: var(--outlined-hover-color);
          transform: translateY(-1px);
        }

        .variant-outlined:active:not(.disabled):not(.loading) {
          background-color: var(--primary-active-bg);
          color: var(--outlined-hover-color);
          transform: translateY(0);
        }

        .variant-ghost {
          background-color: var(--ghost-bg);
          color: var(--ghost-color);
          border-color: transparent;
        }

        .variant-ghost:hover:not(.disabled):not(.loading) {
          background-color: var(--ghost-hover-bg);
          transform: translateY(-1px);
        }

        .variant-ghost:active:not(.disabled):not(.loading) {
          background-color: var(--ghost-active-bg);
          transform: translateY(0);
        }

        .variant-glow {
          background-color: var(--primary-bg);
          color: var(--primary-color);
          border-color: var(--primary-bg);
          box-shadow: 0 0 20px rgba(37, 99, 235, 0.5);
        }

        .variant-glow:hover:not(.disabled):not(.loading) {
          background-color: var(--primary-hover-bg);
          border-color: var(--primary-hover-bg);
          box-shadow: 0 0 30px rgba(37, 99, 235, 0.8);
          transform: translateY(-1px);
        }

        .variant-glow:active:not(.disabled):not(.loading) {
          background-color: var(--primary-active-bg);
          border-color: var(--primary-active-bg);
          transform: translateY(0);
        }

        .variant-link {
          background-color: var(--link-bg);
          color: var(--link-color);
          border: none;
          box-shadow: none;
          padding: 0;
          min-height: auto;
          text-decoration: underline;
        }

        .variant-link:hover:not(.disabled):not(.loading) {
          color: var(--link-hover-color);
          transform: none;
        }

        .variant-link:active:not(.disabled):not(.loading) {
          color: var(--primary-active-bg);
          transform: none;
        }

        .variant-icon-btn {
          padding: 0.5rem;
          aspect-ratio: 1;
          border-radius: 50%;
          background-color: var(--primary-bg);
          color: var(--primary-color);
        }

        .variant-icon-btn.size-small {
          padding: 0.375rem;
        }

        .variant-icon-btn.size-large {
          padding: 0.75rem;
        }

        .variant-icon-btn:hover:not(.disabled):not(.loading) {
          background-color: var(--primary-hover-bg);
          transform: translateY(-1px);
        }

        .variant-icon-btn:active:not(.disabled):not(.loading) {
          background-color: var(--primary-active-bg);
          transform: translateY(0);
        }

        /* Custom glow effect */
        ".

(** The literal rule text after the instance-scoped rules, up to and
    including the closing style tag. *)
Definition css_states : string :=
"

        .btn:focus-visible {
          outline: 2px solid currentColor;
          outline-offset: 2px;
        }

        .btn.disabled,
        .btn.loading {
          opacity: 0.6;
          cursor: not-allowed;
          pointer-events: none;
          transform: none !important;
        }

        /* Loading state */
        .loading-spinner {
          width: 1em;
          height: 1em;
          border: 2px solid transparent;
          border-top: 2px solid currentColor;
          border-radius: 50%;
          animation: spin 1s linear infinite;
        }

        @keyframes spin {
          to { transform: rotate(360deg); }
        }

        /* Ripple effect */
        .ripple {
          position: absolute;
          border-radius: 50%;
          background-color: rgba(255, 255, 255, 0.4);
          transform: scale(0);
          animation: ripple-animation 0.6s ease-out;
          pointer-events: none;
          z-index: 1;
        }

        @keyframes ripple-animation {
          to { 
            transform: scale(4); 
            opacity: 0; 
          }
        }

        /* Slot styles */
        ::slotted(svg),
        ::slotted(i),
        ::slotted(.icon) {
          width: 1em;
          height: 1em;
          flex-shrink: 0;
        }

        .btn-content {
          display: inline-flex;
          align-items: center;
          gap: 0.5rem;
          z-index: 2;
          position: relative;
        }
      </style>

      ".
(** ** Rendering *)

Section Component.

(** [Math.random().toString(36).substr(2, 9)] at the n-th call of
    [Math.random]. *)
Variable random_suffix : nat -> string.

(** [new Function("event", "button", body)]: a [SyntaxError] message, or
    the callable.  The callable is opaque author code: it may change
    anything in the store and may throw. *)
Variable newFunction : string -> string + M unit.

Definition getInstanceId (w : World) : string * World :=
  if truthy_attr (_instanceId w) then (ToString (of_attr (_instanceId w)), w)
  else
    let id := "lume-btn-" ++ random_suffix (randomCalls w) in
    (id, set_instanceId (Some id) (set_randomCalls (S (randomCalls w)) w)).

(** The template literal assigned to [shadowRoot.innerHTML]. *)
Definition template (instanceId inlineStyles : string) (w : World) : string :=
  let isLink := truthy_attr (get_href w) in
  let isDisabled := get_disabled w || get_loading w in
  let elementType := if isLink then "a" else "button" in
  "
      <style>
        :host {
          display: " ++ (if get_fullWidth w then "block" else "inline-block") ++
  css_palette ++ glowEffect w ++ "

        /* Custom hover and active styles with proper specificity */
        " ++ customHoverActiveStyles instanceId w ++ css_states ++
  "<" ++ elementType ++ "
        class=" ++ dq ++ "btn " ++ instanceId ++ " variant-" ++ get_variant w ++
  " size-" ++ get_size w ++ " " ++ (if isDisabled then "disabled" else "") ++
  " " ++ (if get_loading w then "loading" else "") ++ dq ++ "
        " ++ (if negb isLink then "type=" ++ dq ++ "button" ++ dq else "") ++ "
        " ++ (if isLink
              then "href=" ++ dq ++ ToString (of_attr (get_href w)) ++ dq
              else "") ++ "
        " ++ (if isLink then "target=" ++ dq ++ get_target w ++ dq else "") ++ "
        " ++ (if isDisabled then "disabled" else "") ++ "
        " ++ (if isLink
              then ""
              else "aria-disabled=" ++ dq ++ ToString (VBool isDisabled) ++ dq) ++ "
        tabindex=" ++ dq ++ (if isDisabled then "-1" else "0") ++ dq ++ "
        role=" ++ dq ++ (if isLink then "link" else "button") ++ dq ++ "
        " ++ (if get_loading w then "aria-busy=" ++ dq ++ "true" ++ dq else "") ++ "
        " ++ (if get_loading w then "aria-live=" ++ dq ++ "polite" ++ dq else "") ++ "
        " ++ (if negb (String.eqb inlineStyles "")
              then "style=" ++ dq ++ inlineStyles ++ dq
              else "") ++ "
      >
        <span class=" ++ dq ++ "btn-content" ++ dq ++ ">
          " ++ (if get_loading w
                then "<span class=" ++ dq ++ "loading-spinner" ++ dq ++
                     " aria-hidden=" ++ dq ++ "true" ++ dq ++ "></span>"
                else "") ++ "
          <slot></slot>
        </span>
      </" ++ elementType ++ ">
    ".

(** [btn.removeEventListener("click", rippleHandler)]. *)
Definition removeClickListener (target handler : nat) (w : World) : World :=
  set_clickListeners
    (filter (fun l => l <> (target, handler)) (clickListeners w)) w.

Definition setupRippleEffect (w : World) : World :=
  match btn w with
  | Some b =>
      if negb (get_disabled w) && negb (get_loading w) then
        (* Clean up previous listener *)
        let w1 :=
          match _rippleCleanup w with
          | Some (b0, h0) => removeClickListener b0 h0 w
          | None => w
          end in
        let rippleHandler := fresh w1 in
        let w2 := set_fresh (S rippleHandler) w1 in
        let w3 := set_clickListeners
                    (clickListeners w2 ++ [(b, rippleHandler)])%list w2 in
        set_rippleCleanup (Some (b, rippleHandler)) w3
      else w
  | None => w
  end.

(** [render]: assigning [innerHTML] discards the previous shadow tree and
    parses a new one, so the rendered element is a new node. *)
Definition render (w : World) : World :=
  let inlineStyles := generateInlineStyles w in
  let '(instanceId, w1) := getInstanceId w in
  let w2 := set_innerHTML (template instanceId inlineStyles w1) w1 in
  let w3 := set_btn (Some (fresh w2)) (set_fresh (S (fresh w2)) w2) in
  (* Setup ripple effect after rendering *)
  setupRippleEffect w3.

(** ** Attribute mutation *)

Definition attributeChangedCallback (name : string)
    (oldValue newValue : option string) (w : World) : World :=
  if _initialized w && negb (bool_decide (oldValue = newValue))
  then render w else w.

(** [Element.setAttribute]: store the value, then run the reaction of an
    observed attribute. *)
Definition setAttribute (name value : string) (w : World) : World :=
  let oldValue := attributes w !! name in
  let w' := set_attributes (<[name := value]> (attributes w)) w in
  if includes observedAttributes name
  then attributeChangedCallback name oldValue (Some value) w'
  else w'.

(** [Element.removeAttribute]: nothing happens for an absent attribute. *)
Definition removeAttribute (name : string) (w : World) : World :=
  match attributes w !! name with
  | None => w
  | Some old =>
      let w' := set_attributes (delete name (attributes w)) w in
      if includes observedAttributes name
      then attributeChangedCallback name (Some old) None w'
      else w'
  end.

(** ** Property setters *)

Definition set_variant (value : Value) (w : World) : World :=
  setAttribute "variant" (ToString value) w.

Definition set_size (value : Value) (w : World) : World :=
  setAttribute "size" (ToString value) w.

Definition set_disabled (value : Value) (w : World) : World :=
  if truthy value then setAttribute "disabled" "" w
  else removeAttribute "disabled" w.

Definition set_loading (value : Value) (w : World) : World :=
  if truthy value then setAttribute "loading" "" w
  else removeAttribute "loading" w.

Definition set_href (value : Value) (w : World) : World :=
  if truthy value then setAttribute "href" (ToString value) w
  else removeAttribute "href" w.

Definition updateStyle (property : string) (value : Value) (w : World) : World :=
  match value with
  | VNull | VUndefined => removeAttribute property w
  | _ => setAttribute property (ToString value) w
  end.

(** ** Property upgrade *)

(** What [LumeButton.prototype] defines under a property name. *)
Inductive Accessor : Type :=
| GetterAndSetter
| GetterOnly
| NoAccessor.

Definition prototype_accessor (prop : string) : Accessor :=
  if includes ["variant"; "size"; "disabled"; "loading"; "href"] prop
  then GetterAndSetter
  else if includes
    ["fullWidth"; "target"; "color"; "bgColor"; "hoverColor"; "hoverBgColor";
     "activeColor"; "activeBgColor"; "border"; "radius"; "padding";
     "fontSize"; "fontWeight"; "width"; "height"; "glowColor"; "shadow";
     "onclickHandler"] prop
  then GetterOnly
  else NoAccessor.

(** The setter the class defines for [prop]. *)
Definition call_setter (prop : string) (value : Value) (w : World) : World :=
  if String.eqb prop "variant" then set_variant value w
  else if String.eqb prop "size" then set_size value w
  else if String.eqb prop "disabled" then set_disabled value w
  else if String.eqb prop "loading" then set_loading value w
  else if String.eqb prop "href" then set_href value w
  else w.

(** [this[prop] = value] in strict code: an own data property is
    overwritten; otherwise an inherited setter runs, a getter without a
    setter makes the assignment a [TypeError], and with no inherited
    property a new own data property is created.  The names meant are
    those of the property surface, as in [_upgradeProperties]: an
    assignment to a field the constructor creates, to a method or to a
    member inherited from the DOM has effects of its own, which [ownProps]
    does not record. *)
Definition assign (prop : string) (value : Value) : M unit :=
  fun w =>
    match ownProps w !! prop with
    | Some _ => (Normal tt, set_ownProps (<[prop := value]> (ownProps w)) w)
    | None =>
        match prototype_accessor prop with
        | GetterAndSetter => (Normal tt, call_setter prop value w)
        | GetterOnly =>
            (Throw ("TypeError: Cannot set property " ++ prop ++
                    " which has only a getter"), w)
        | NoAccessor =>
            (Normal tt, set_ownProps (<[prop := value]> (ownProps w)) w)
        end
    end.

(** [setDisabled] and [setLoading] assign to the property of the same
    name. *)
Definition setDisabled (disabled : Value) : M unit :=
  assign "disabled" disabled.

Definition setLoading (loading : Value) : M unit :=
  assign "loading" loading.

(** The callback passed to [forEach] in [_upgradeProperties]. *)
Definition upgradeProperty (prop : string) : M unit :=
  fun w =>
    match ownProps w !! prop with
    | Some value =>
        let w1 := set_ownProps (delete prop (ownProps w)) w in
        assign prop value w1
    | None => (Normal tt, w)
    end.

Fixpoint forEach (f : string -> M unit) (l : list string) : M unit :=
  match l with
  | [] => ret tt
  | x :: rest => f x >> forEach f rest
  end.

Definition _upgradeProperties : M unit :=
  forEach upgradeProperty observedAttributes.

(** ** Lifecycle *)

Definition setupEventListeners (w : World) : World :=
  set_hostKeydown true (set_hostClick true w).

Definition removeEventListeners (w : World) : World :=
  let w1 := set_hostKeydown false (set_hostClick false w) in
  match _rippleCleanup w1 with
  | Some (b0, h0) => set_rippleCleanup None (removeClickListener b0 h0 w1)
  | None => w1
  end.

(** The calls [this._upgradeProperties()], [this.render()] and
    [this.setupEventListeners()] are taken to reach the methods of the
    class. *)
Definition connectedCallback : M unit :=
  _upgradeProperties >>
  lift render >>
  lift setupEventListeners >>
  lift (set_initialized true).

Definition disconnectedCallback (w : World) : World :=
  removeEventListeners w.

(** ** Activation *)

(** [event.preventDefault()]. *)
Definition preventDefault (w : World) : World :=
  let e := event w in
  let e' := mkEvent (key e) (cancelable e)
                    (defaultPrevented e || cancelable e)
                    (propagationStopped e) (clientX e) (clientY e) in
  log EPreventDefault (set_event e' w).

(** [event.stopPropagation()]. *)
Definition stopPropagation (w : World) : World :=
  let e := event w in
  let e' := mkEvent (key e) (cancelable e) (defaultPrevented e) true
                    (clientX e) (clientY e) in
  log EStopPropagation (set_event e' w).

(** [new Function(...)] followed by [handler.call(this, event, this)]. *)
Definition run_handler (body : string) : M unit :=
  fun w =>
    let w1 := log (ENewFunction body) w in
    match newFunction body with
    | inl syntax_error => (Throw syntax_error, w1)
    | inr handler => handler (log ECall w1)
    end.

Definition console_error (msg : string) (error : string) : M unit :=
  lift (log (EConsoleError msg error)).

(** The [lume-click] event, with its detail read at dispatch time. *)
Definition dispatch_lume_click (w : World) : World :=
  log (EDispatchEvent "lume-click" true true
         (mkDetail (get_href w) (get_variant w) (get_size w))) w.

Definition navigate (w : World) : World :=
  if truthy_attr (get_href w) && negb (defaultPrevented (event w)) then
    let w1 := preventDefault w in
    if String.eqb (get_target w1) "_blank" then
      log (EWindowOpen (ToString (of_attr (get_href w1))) "_blank"
             "noopener,noreferrer") w1
    else
      log (ELocationHref (ToString (of_attr (get_href w1)))) w1
  else w.

(** The first block of [handleClick] after the gate: execute the custom
    onclick handler if provided. *)
Definition execute_onclick_handler : M unit :=
  fun w =>
    if truthy_attr (get_onclickHandler w) then
      try_catch
        (run_handler (ToString (of_attr (get_onclickHandler w))))
        (fun error => console_error "Error executing onclick handler:" error)
        w
    else ret tt w.

Definition handleClick : M unit :=
  fun w =>
    if get_disabled w || get_loading w then
      (Normal tt, stopPropagation (preventDefault w))
    else
      (execute_onclick_handler >>
       (* Handle href navigation *)
       lift navigate >>
       (* Dispatch custom event *)
       lift dispatch_lume_click) w.

Definition is_confirm_key (k : option string) : bool :=
  match k with
  | Some s => String.eqb s "Enter" || String.eqb s " "
  | None => false
  end.

Definition handleKeydown : M unit :=
  fun w =>
    if is_confirm_key (key (event w)) && negb (get_disabled w)
       && negb (get_loading w)
    then handleClick (preventDefault w)
    else (Normal tt, w).

(** ** Ripple *)

(** [createRipple(event)], with [button = event.currentTarget]. *)
Definition createRipple (button : nat) (w : World) : World :=
  if get_disabled w || get_loading w || String.eqb (get_variant w) "link"
  then w
  else
    let rect := rects w button in
    let size := Math_max (rect_width rect) (rect_height rect) in
    let x := (clientX (event w) - rect_left rect - size / 2)%float in
    let y := (clientY (event w) - rect_top rect - size / 2)%float in
    let ripple := mkRipple (fresh w) button size size x y in
    let w1 := set_fresh (S (fresh w)) w in
    let w2 := set_ripples (ripples w1 ++ [ripple])%list w1 in
    set_timers (timers w2 ++ [(600%Z, ripple_id ripple)])%list w2.

(** The callback given to [setTimeout]: remove the ripple if it still has
    a parent. *)
Definition ripple_timeout (ripple : nat) (w : World) : World :=
  if existsb (fun r => Nat.eqb (ripple_id r) ripple) (ripples w)
  then set_ripples
         (filter (fun r => ripple_id r <> ripple) (ripples w)) w
  else w.

(** The host delivering a click to the rendered element [b]: every
    ["click"] listener registered on [b] runs, in registration order,
    with [event.currentTarget = b]. *)
Definition click_listeners_on (b : nat) (w : World) : list nat :=
  map snd (filter (fun l => fst l = b) (clickListeners w)).

Definition run_click_listeners (b : nat) (w : World) : World :=
  fold_left (fun acc _ => createRipple b acc) (click_listeners_on b w) w.

(** A pointer activation of the rendered element: its own listeners run
    first, then the event bubbles across the shadow boundary to the host
    listener, unless propagation was stopped on the way. *)
Definition pointer_activation : M unit :=
  fun w =>
    match btn w with
    | Some b =>
        let w1 := run_click_listeners b w in
        if hostClick w1 && negb (propagationStopped (event w1))
        then handleClick w1
        else (Normal tt, w1)
    | None => (Normal tt, w)
    end.

(** A key pressed while the instance has focus. *)
Definition keyboard_activation : M unit :=
  fun w => if hostKeydown w then handleKeydown w else (Normal tt, w).

(** The event of [HTMLElement.click()]: a synthetic, cancelable click
    with no pointer position. *)
Definition synthetic_click : Event := mkEvent None true false false 0 0.

(** [click()]: when not gated, [btn.click()] on the rendered element. *)
Definition click : M unit :=
  fun w =>
    if negb (get_disabled w) && negb (get_loading w) then
      match btn w with
      | Some _ => pointer_activation (set_event synthetic_click w)
      | None => (Normal tt, w)
      end
    else (Normal tt, w).

(** ** Validation *)

(** [validate] is called on any instance, upgraded a moment ago or long
    connected, so its two reads are taken as look-ups. *)
Definition validate (w : World) : list string :=
  let issues := [] in
  let issues :=
    if truthy (this_disabled w) && truthy (this_loading w)
    then (issues ++ ["Button cannot be both disabled and loading"])%list
    else issues in
  issues.

End Component.

(** The instance as the constructor leaves it: attributes and early-set
    own properties are whatever the document and the embedding script put
    there; nothing is rendered and no listener is attached. *)
Definition idle_event : Event := mkEvent None false false false 0 0.

Definition constructor (attrs : gmap string string)
    (props : gmap string Value) (layout : nat -> Rect) : World :=
  mkWorld attrs props false None None "" None false false [] [] [] layout
          0 0 idle_event [].

(** Sample host parameters and events for concrete runs. *)
Definition sample_random : nat -> string := fun _ => "k3x9q0z7m".

Definition flat_layout : nat -> Rect := fun _ => mkRect 10 20 120 40.

(** An engine on which every handler body compiles to a function that
    throws. *)
Definition throwing_engine : string -> string + M unit :=
  fun _ => inr (fun w => (Throw "Error: boom", w)).


Definition enter_keydown : Event := mkEvent (Some "Enter") true false false 0 0.

Definition pointer_click : Event := mkEvent None true false false 70 45.

(** Sample instances. *)
Definition unknown_enums : World :=
  constructor
    {[ "variant" := "neon"; "size" := "huge"; "target" := "_new" ]} ∅
    flat_layout.

Definition known_enums : World :=
  constructor
    {[ "variant" := "ghost"; "size" := "large"; "target" := "_blank" ]} ∅
    flat_layout.

Definition plain_instance : World := constructor ∅ ∅ flat_layout.

Definition early_bg_color : World :=
  constructor ∅ {[ "bg-color" := VStr "red" ]} flat_layout.

Definition early_target : World :=
  constructor ∅ {[ "target" := VStr "_blank" ]} flat_layout.

Definition connected (attrs : gmap string string) : World :=
  state_of (connectedCallback sample_random (constructor attrs ∅ flat_layout)).

Definition disabled_instance : World := connected {[ "disabled" := "" ]}.

Definition fully_gated_instance : World :=
  constructor {[ "disabled" := ""; "loading" := "" ]} ∅ flat_layout.





(** [s] occurs in [t]. *)
Definition occurs_in (s t : string) : Prop :=
  exists pre post, t = pre ++ s ++ post.

(** ** Histories of one instance

    What the host and the embedding script can do to an instance between
    two activations: lifecycle callbacks, attribute mutations, property
    assignments, direct renders, clicks reaching the rendered element's own
    listeners, and ripple timeouts coming due. *)

Inductive Op : Type :=
| OpConnected
| OpDisconnected
| OpSetAttribute (name value : string)
| OpRemoveAttribute (name : string)
| OpAssign (prop : string) (value : Value)
| OpRender
| OpClick (ev : Event)
| OpTimeout (ripple : nat).

Definition step (random_suffix : nat -> string) (op : Op) (w : World) : World :=
  match op with
  | OpConnected => state_of (connectedCallback random_suffix w)
  | OpDisconnected => disconnectedCallback w
  | OpSetAttribute name value => setAttribute random_suffix name value w
  | OpRemoveAttribute name => removeAttribute random_suffix name w
  | OpAssign prop value => state_of (assign random_suffix prop value w)
  | OpRender => render random_suffix w
  | OpClick ev =>
      match btn w with
      | Some b => run_click_listeners b (set_event ev w)
      | None => w
      end
  | OpTimeout ripple => ripple_timeout ripple w
  end.

Definition run (random_suffix : nat -> string) (ops : list Op) (w : World)
  : World :=
  fold_left (fun acc op => step random_suffix op acc) ops w.

(** The operations whose effect on the instance is followed exactly:
    attribute names are plain, so the DOM stores them as given, and a
    property assignment goes to a name for which the class defines an
    accessor, so on an unshadowed instance it runs the setter or is
    rejected and never creates an own property. *)
Definition supported (op : Op) : bool :=
  match op with
  | OpSetAttribute name _ => plain_name name
  | OpRemoveAttribute name => plain_name name
  | OpAssign prop _ =>
      match prototype_accessor prop with
      | NoAccessor => false
      | _ => true
      end
  | _ => true
  end.

(** The ripple listeners in existence are exactly the one the instance
    keeps a cleanup closure for. *)
Definition listeners_tracked (w : World) : Prop :=
  clickListeners w =
  match _rippleCleanup w with
  | Some l => [l]
  | None => []
  end.

(** Once initialised there is a rendered element, and while the instance
    is bound and not gated that element carries the tracked listener. *)
Definition rendered_listener (w : World) : Prop :=
  _initialized w = true ->
  exists b, btn w = Some b /\
    (hostClick w = true -> gated w = false ->
     exists h, _rippleCleanup w = Some (b, h)).

Definition bound_after_init (w : World) : Prop :=
  hostClick w = true -> _initialized w = true.

Definition ripple_ids_allocated (w : World) : Prop :=
  forall r, In r (ripples w) -> ripple_id r < fresh w.

Definition consistent (w : World) : Prop :=
  listeners_tracked w /\ rendered_listener w /\ bound_after_init w /\
  ripple_ids_allocated w.

(** ** Registration

    The registry of custom elements maps a name to the class defined under
    it.  [customElements.define] throws when the name is taken or when the
    class is already registered. *)

Definition customElements_get (name : string) (registry : gmap string string)
  : option string :=
  registry !! name.

Definition customElements_define (name cls : string)
    (registry : gmap string string) : string + gmap string string :=
  match registry !! name with
  | Some _ => inl "NotSupportedError: name already used"
  | None =>
      if existsb (fun entry => String.eqb (snd entry) cls)
                 (map_to_list registry)
      then inl "NotSupportedError: constructor already used"
      else inr (<[name := cls]> registry)
  end.

(** The last statement of the module, for the class object [cls] this
    evaluation of the module created. *)
Definition register (cls : string) (registry : gmap string string)
  : string + gmap string string :=
  match customElements_get "lume-button" registry with
  | None => customElements_define "lume-button" cls registry
  | Some _ => inr registry
  end.

(** ** What every history keeps

    The markup last written is the template of the current attributes; the
    instance identifier is drawn once; element and listener identities are
    allocated before they are used; a gated, initialised instance has no
    ripple listener on its rendered element; every ripple hangs under an
    element that was allocated before. *)

Definition markup_in_sync (w : World) : Prop :=
  _initialized w = true ->
  exists id, _instanceId w = Some id /\ id <> "" /\
             innerHTML w = template id (generateInlineStyles w) w.

Definition id_drawn_once (random_suffix : nat -> string) (w : World) : Prop :=
  (_instanceId w = None /\ randomCalls w = 0) \/
  (_instanceId w = Some ("lume-btn-" ++ random_suffix 0) /\ randomCalls w = 1).

Definition elements_allocated (w : World) : Prop :=
  (forall b, btn w = Some b -> b < fresh w) /\
  (forall l, In l (clickListeners w) -> fst l < fresh w).

Definition gated_unlistened (w : World) : Prop :=
  _initialized w = true -> gated w = true ->
  forall b, btn w = Some b -> click_listeners_on b w = [].

Definition ripples_parented (w : World) : Prop :=
  forall r, In r (ripples w) -> parentNode r < fresh w.

Definition reconciled (random_suffix : nat -> string) (w : World) : Prop :=
  markup_in_sync w /\ id_drawn_once random_suffix w /\
  elements_allocated w /\ gated_unlistened w /\ ripples_parented w.

(** Histories that neither connect the instance nor call [render]. *)
Definition before_connection (op : Op) : bool :=
  match op with
  | OpConnected | OpRender => false
  | _ => true
  end.

(** Histories that do not connect the instance. *)
Definition without_connection (op : Op) : bool :=
  match op with
  | OpConnected => false
  | _ => true
  end.

(** The inline declarations of [generateInlineStyles], as a table:
    attribute, text before the value, text after it. *)
Definition inline_declarations : list (string * string * string) :=
  [ ("color", "color: ", "");
    ("bg-color", "background: ", "");
    ("border", "border: ", " !important");
    ("radius", "border-radius: ", " !important");
    ("padding", "padding: ", " !important");
    ("font-size", "font-size: ", " !important");
    ("font-weight", "font-weight: ", " !important");
    ("width", "width: ", " !important");
    ("height", "height: ", " !important");
    ("shadow", "box-shadow: ", " !important") ].

(** The store of an instance that has never been rendered. *)
Definition unrendered (w : World) : Prop :=
  _initialized w = false /\ innerHTML w = "" /\ btn w = None /\
  clickListeners w = [] /\ _rippleCleanup w = None /\ randomCalls w = 0 /\
  _instanceId w = None /\ hostClick w = false /\ hostKeydown w = false.

(** More sample engines: a handler that returns at once, and one that
    calls [event.preventDefault()]. *)
Definition quiet_engine : string -> string + M unit :=
  fun _ => inr (ret tt).

Definition preventing_engine : string -> string + M unit :=
  fun _ => inr (lift preventDefault).

Definition space_keydown : Event := mkEvent (Some " ") true false false 0 0.


Definition handler_link_instance : World :=
  set_event pointer_click
    (connected {[ "onclick-handler" := "event.preventDefault()";
                  "href" := "https://example.com" ]}).

(** A sample history. *)
Definition sample_history : list Op :=
  [OpConnected; OpSetAttribute "size" "large"; OpSetAttribute "disabled" "";
   OpRemoveAttribute "disabled"; OpRender].

(** More sample histories and instances. *)
Definition gated_history : list Op :=
  [OpConnected; OpSetAttribute "size" "large"; OpSetAttribute "disabled" ""].

Definition early_writes : list Op :=
  [OpSetAttribute "variant" "ghost"; OpAssign "disabled" (VBool true);
   OpRemoveAttribute "variant"; OpDisconnected].

Definition primary_attrs : gmap string string := {[ "variant" := "primary" ]}.


Definition early_href : World :=
  constructor ∅
    {[ "href" := VStr "https://example.com"; "data" := VStr "kept" ]}
    flat_layout.

Definition styled_instance : World :=
  constructor
    {[ "variant" := "glow"; "color" := "red"; "padding" := "4px";
       "hover-color" := "pink"; "hover-bg-color" := "navy";
       "active-color" := "white"; "active-bg-color" := "black" ]} ∅
    flat_layout.

Definition link_instance : World :=
  constructor {[ "href" := "https://example.com"; "target" := "_top" ]} ∅
    flat_layout.





(** A history of supported operations. *)
Definition supported_history : list Op :=
  [OpSetAttribute "variant" "ghost"; OpConnected;
   OpAssign "disabled" (VBool true); OpAssign "target" (VStr "_top");
   OpSetAttribute "bg-color" "teal"; OpAssign "disabled" (VBool false);
   OpClick pointer_click; OpDisconnected; OpConnected].

(** * Properties *)

(** ** Strings and arrays *)

Lemma includes_In (l : list string) (v : string) :
  includes l v = true <-> In v l.
Proof.
  unfold includes. rewrite existsb_exists. split.
  - intros [x [Hx Heq]]. apply String.eqb_eq in Heq. now subst.
  - intros H. exists v. split; [assumption | apply String.eqb_refl].
Qed.

Lemma includes_false (l : list string) (v : string) :
  includes l v = false <-> ~ In v l.
Proof.
  rewrite <- includes_In. destruct (includes l v); split; congruence.
Qed.

Lemma truthy_attr_Some (o : option string) :
  truthy_attr o = true <-> exists s, o = Some s /\ s <> "".
Proof.
  unfold truthy_attr. destruct o as [s|]; simpl.
  - destruct (String.eqb_spec s ""); simpl; split.
    + discriminate.
    + intros [s' [[= <-] Hne]]. contradiction.
    + intros _. now exists s.
    + reflexivity.
  - split; [discriminate | intros [s [[=] _]]].
Qed.

(** ** Enum resolution *)

Lemma resolve_valid (valid : list string) (dflt s : string) :
  In s valid -> s <> "" -> resolve valid dflt (Some s) = s.
Proof.
  intros Hin Hne. unfold resolve, or_default.
  destruct (String.eqb_spec s ""); [contradiction|].
  apply includes_In in Hin. now rewrite Hin.
Qed.

Lemma resolve_invalid (valid : list string) (dflt : string) (raw : option string) :
  (forall s, raw = Some s -> ~ In s valid) -> resolve valid dflt raw = dflt.
Proof.
  intros Hnot. unfold resolve, or_default.
  destruct raw as [s|].
  - destruct (String.eqb s "").
    + now destruct (includes valid dflt).
    + specialize (Hnot s eq_refl). apply includes_false in Hnot.
      now rewrite Hnot.
  - now destruct (includes valid dflt).
Qed.

Lemma resolve_member (valid : list string) (dflt : string) (raw : option string) :
  In dflt valid -> In (resolve valid dflt raw) valid.
Proof.
  intros Hd. unfold resolve.
  destruct (includes valid (or_default raw dflt)) eqn:E.
  - now apply includes_In.
  - assumption.
Qed.

(** C3: a raw [variant], [size] or [target] attribute that is missing or
    not one of the valid strings resolves to ["primary"], ["medium"] and
    ["_self"] respectively; a raw value that is one of the valid strings
    resolves to itself. *)
Theorem enum_getters_resolve (w : World) :
  ((forall s, getAttribute "variant" w = Some s -> ~ In s validVariants) ->
     get_variant w = "primary") /\
  ((forall s, getAttribute "size" w = Some s -> ~ In s validSizes) ->
     get_size w = "medium") /\
  ((forall s, getAttribute "target" w = Some s -> ~ In s validTargets) ->
     get_target w = "_self") /\
  (forall s, getAttribute "variant" w = Some s -> In s validVariants ->
     get_variant w = s) /\
  (forall s, getAttribute "size" w = Some s -> In s validSizes ->
     get_size w = s) /\
  (forall s, getAttribute "target" w = Some s -> In s validTargets ->
     get_target w = s).
Proof.
  unfold get_variant, get_size, get_target.
  repeat split.
  - apply resolve_invalid.
  - apply resolve_invalid.
  - apply resolve_invalid.
  - intros s -> Hin. apply resolve_valid; [assumption|].
    intros ->. simpl in Hin. intuition discriminate.
  - intros s -> Hin. apply resolve_valid; [assumption|].
    intros ->. simpl in Hin. intuition discriminate.
  - intros s -> Hin. apply resolve_valid; [assumption|].
    intros ->. simpl in Hin. intuition discriminate.
Qed.

(** ** Frame properties of rendering and attribute mutation *)

Ltac case_matches :=
  repeat match goal with
         | |- context [match ?x with _ => _ end] => destruct x eqn:?
         end.

Ltac unfold_getters :=
  unfold gated, get_variant, get_size, get_target, get_disabled, get_loading,
    get_fullWidth, get_href, get_color, get_bgColor, get_hoverColor,
    get_hoverBgColor, get_activeColor, get_activeBgColor, get_border,
    get_radius, get_padding, get_fontSize, get_fontWeight, get_width,
    get_height, get_glowColor, get_shadow, get_onclickHandler,
    hasAttribute, getAttribute in *.

Section Frames.

Variable rs : nat -> string.

Lemma setupRippleEffect_attributes (w : World) :
  attributes (setupRippleEffect w) = attributes w.
Proof. unfold setupRippleEffect. case_matches; simpl; congruence. Qed.

Lemma setupRippleEffect_innerHTML (w : World) :
  innerHTML (setupRippleEffect w) = innerHTML w.
Proof. unfold setupRippleEffect. case_matches; simpl; congruence. Qed.

Lemma setupRippleEffect_instanceId (w : World) :
  _instanceId (setupRippleEffect w) = _instanceId w.
Proof. unfold setupRippleEffect. case_matches; simpl; congruence. Qed.

Lemma setupRippleEffect_btn (w : World) :
  btn (setupRippleEffect w) = btn w.
Proof. unfold setupRippleEffect. case_matches; simpl; congruence. Qed.

Lemma getInstanceId_attributes (w : World) :
  attributes (snd (getInstanceId rs w)) = attributes w.
Proof. unfold getInstanceId. case_matches; reflexivity. Qed.

Lemma getInstanceId_truthy (w : World) :
  _instanceId (snd (getInstanceId rs w)) = Some (fst (getInstanceId rs w)) /\
  fst (getInstanceId rs w) <> "".
Proof.
  unfold getInstanceId.
  destruct (truthy_attr (_instanceId w)) eqn:E; simpl.
  - apply truthy_attr_Some in E. destruct E as [s [-> Hs]]. now split.
  - split; [reflexivity | discriminate].
Qed.

Lemma getInstanceId_stable (w : World) (id : string) :
  _instanceId w = Some id -> id <> "" -> getInstanceId rs w = (id, w).
Proof.
  intros H Hne. unfold getInstanceId.
  assert (truthy_attr (_instanceId w) = true) as ->.
  { apply truthy_attr_Some. now exists id. }
  now rewrite H.
Qed.

Lemma render_unfold (w : World) :
  render rs w =
  let w1 := snd (getInstanceId rs w) in
  let w2 := set_innerHTML
              (template (fst (getInstanceId rs w)) (generateInlineStyles w) w1)
              w1 in
  setupRippleEffect (set_btn (Some (fresh w2)) (set_fresh (S (fresh w2)) w2)).
Proof. unfold render. now destruct (getInstanceId rs w). Qed.

Lemma render_attributes (w : World) :
  attributes (render rs w) = attributes w.
Proof.
  rewrite render_unfold. cbv zeta. rewrite setupRippleEffect_attributes.
  simpl. apply getInstanceId_attributes.
Qed.

Lemma render_innerHTML (w : World) :
  innerHTML (render rs w) =
  template (fst (getInstanceId rs w)) (generateInlineStyles w)
           (snd (getInstanceId rs w)).
Proof.
  rewrite render_unfold. cbv zeta. now rewrite setupRippleEffect_innerHTML.
Qed.

Lemma render_instanceId (w : World) :
  _instanceId (render rs w) = Some (fst (getInstanceId rs w)).
Proof.
  rewrite render_unfold. cbv zeta. rewrite setupRippleEffect_instanceId.
  simpl. apply getInstanceId_truthy.
Qed.


Lemma generateInlineStyles_ext (w w' : World) :
  attributes w = attributes w' ->
  generateInlineStyles w = generateInlineStyles w'.
Proof.
  intros H. unfold generateInlineStyles. unfold_getters. now rewrite H.
Qed.

Lemma template_ext (id styles : string) (w w' : World) :
  attributes w = attributes w' -> template id styles w = template id styles w'.
Proof.
  intros H. unfold template, glowEffect, customHoverActiveStyles.
  unfold_getters. now rewrite H.
Qed.

Lemma attributeChangedCallback_attributes name o n (w : World) :
  attributes (attributeChangedCallback rs name o n w) = attributes w.
Proof.
  unfold attributeChangedCallback.
  destruct (_ && _); [apply render_attributes | reflexivity].
Qed.

Lemma setAttribute_attributes (name value : string) (w : World) :
  attributes (setAttribute rs name value w) = <[name := value]> (attributes w).
Proof.
  unfold setAttribute.
  destruct (includes observedAttributes name);
    [rewrite attributeChangedCallback_attributes|]; reflexivity.
Qed.

Lemma removeAttribute_attributes (name : string) (w : World) :
  attributes (removeAttribute rs name w) = delete name (attributes w).
Proof.
  unfold removeAttribute.
  destruct (attributes w !! name) eqn:E.
  - destruct (includes observedAttributes name);
      [rewrite attributeChangedCallback_attributes|]; reflexivity.
  - symmetry. now apply delete_id.
Qed.

Lemma getAttribute_setAttribute (name value : string) (w : World) :
  getAttribute name (setAttribute rs name value w) = Some value.
Proof.
  unfold getAttribute. rewrite setAttribute_attributes.
  apply lookup_insert_eq.
Qed.

Lemma getAttribute_removeAttribute (name : string) (w : World) :
  getAttribute name (removeAttribute rs name w) = None.
Proof.
  unfold getAttribute. rewrite removeAttribute_attributes.
  apply lookup_delete_eq.
Qed.

Lemma setAttribute_uninitialized (name value : string) (w : World) :
  _initialized w = false ->
  setAttribute rs name value w =
  set_attributes (<[name := value]> (attributes w)) w.
Proof.
  intros H. unfold setAttribute, attributeChangedCallback.
  destruct (includes observedAttributes name); [|reflexivity].
  cbn [_initialized set_attributes]. now rewrite H.
Qed.

Lemma removeAttribute_uninitialized (name : string) (w : World) :
  _initialized w = false ->
  innerHTML (removeAttribute rs name w) = innerHTML w.
Proof.
  intros H. unfold removeAttribute, attributeChangedCallback.
  destruct (attributes w !! name); [|reflexivity].
  destruct (includes observedAttributes name); [|reflexivity].
  cbn [_initialized set_attributes]. now rewrite H.
Qed.

End Frames.

(** ** Occurrences in the generated markup *)

Lemma occurs_in_here (s t : string) :
  (exists post, t = s ++ post) -> occurs_in s t.
Proof. intros [post ->]. now exists "", post. Qed.

Lemma append_assoc (a b c : string) : (a ++ b) ++ c = a ++ b ++ c.
Proof.
  induction a as [|x a IH]; [reflexivity|].
  change (String x ((a ++ b) ++ c) = String x (a ++ b ++ c)).
  now rewrite IH.
Qed.

Lemma occurs_in_skip (s p t : string) : occurs_in s t -> occurs_in s (p ++ t).
Proof.
  intros [pre [post ->]]. exists (p ++ pre), post. now rewrite append_assoc.
Qed.



(** ** Idempotent rendering *)

(** C4: the markup and style text that [render] writes are determined by
    the attribute bag and the instance identifier; so rendering again with
    no attribute change writes exactly the same text, and the identifier
    generated by the first render is kept. *)
Theorem render_idempotent (rs : nat -> string) (w : World) :
  innerHTML (render rs (render rs w)) = innerHTML (render rs w) /\
  _instanceId (render rs (render rs w)) = _instanceId (render rs w) /\
  (forall w',
     attributes w' = attributes (render rs w) ->
     _instanceId w' = _instanceId (render rs w) ->
     innerHTML (render rs w') = innerHTML (render rs w)).
Proof.
  assert (Hgen : forall w',
     attributes w' = attributes (render rs w) ->
     _instanceId w' = _instanceId (render rs w) ->
     getInstanceId rs w' = (fst (getInstanceId rs w), w') /\
     innerHTML (render rs w') = innerHTML (render rs w)).
  { intros w' Ha Hi.
    rewrite render_attributes in Ha. rewrite render_instanceId in Hi.
    destruct (getInstanceId_truthy rs w) as [_ Hne].
    pose proof (getInstanceId_stable rs w' _ Hi Hne) as Hst.
    split; [assumption|].
    rewrite !render_innerHTML, Hst. simpl.
    rewrite (generateInlineStyles_ext w' w Ha).
    apply template_ext. now rewrite getInstanceId_attributes. }
  split; [|split].
  - now apply Hgen.
  - destruct (Hgen (render rs w) eq_refl eq_refl) as [Hst _].
    rewrite (render_instanceId rs (render rs w)), Hst. simpl.
    symmetry. apply render_instanceId.
  - intros w' Ha Hi. now apply Hgen.
Qed.

(** ** Property write, then read *)

(** C6, as the code has it: the [disabled] and [loading] setters store the
    truthiness of the written value as attribute presence and the getter
    reads it back, so booleans round-trip; the [href] setter stores a
    truthy value as the attribute value and clears the attribute for a
    falsy one, so non-empty strings round-trip and every falsy value reads
    back as [null].  None of this needs a render: on an instance that is
    not initialised the setters leave the shadow markup alone. *)
Theorem flag_and_href_write_then_read (rs : nat -> string) (w : World) (v : Value) :
  get_disabled (set_disabled rs v w) = truthy v /\
  get_loading (set_loading rs v w) = truthy v /\
  get_href (set_href rs v w) = (if truthy v then Some (ToString v) else None) /\
  (forall b, get_disabled (set_disabled rs (VBool b) w) = b /\
             get_loading (set_loading rs (VBool b) w) = b) /\
  (forall s, s <> "" -> get_href (set_href rs (VStr s) w) = Some s) /\
  get_href (set_href rs VNull w) = None /\
  (_initialized w = false ->
   innerHTML (set_disabled rs v w) = innerHTML w /\
   innerHTML (set_loading rs v w) = innerHTML w /\
   innerHTML (set_href rs v w) = innerHTML w).
Proof.
  assert (Hflag : forall name u,
    hasAttribute name
      (if truthy u then setAttribute rs name "" w
       else removeAttribute rs name w) = truthy u).
  { intros name u. unfold hasAttribute. destruct (truthy u).
    - now rewrite setAttribute_attributes, lookup_insert_eq.
    - now rewrite removeAttribute_attributes, lookup_delete_eq. }
  assert (Hhref : forall u,
    get_href (set_href rs u w) =
    (if truthy u then Some (ToString u) else None)).
  { intros u. unfold get_href, set_href. destruct (truthy u).
    - apply getAttribute_setAttribute.
    - apply getAttribute_removeAttribute. }
  repeat split.
  - apply Hflag.
  - apply Hflag.
  - apply Hhref.
  - unfold get_disabled, set_disabled. now rewrite Hflag.
  - unfold get_loading, set_loading. now rewrite Hflag.
  - intros s Hs. rewrite Hhref. simpl.
    destruct (String.eqb_spec s ""); [contradiction | reflexivity].
  - now rewrite Hhref.
  - unfold set_disabled. destruct (truthy v).
    + now rewrite setAttribute_uninitialized.
    + now apply removeAttribute_uninitialized.
  - unfold set_loading. destruct (truthy v).
    + now rewrite setAttribute_uninitialized.
    + now apply removeAttribute_uninitialized.
  - unfold set_href. destruct (truthy v).
    + now rewrite setAttribute_uninitialized.
    + now apply removeAttribute_uninitialized.
Qed.

(** ** Enum properties *)

(** C10: reading [variant], [size] or [target] always yields a member of
    the valid set; the [variant] and [size] setters store whatever string
    they are given, so after writing a string outside the valid set the
    attribute holds that string while the property reads back the default,
    not the written value. *)
Theorem enum_reads_are_members (rs : nat -> string) (w : World) :
  In (get_variant w) validVariants /\
  In (get_size w) validSizes /\
  In (get_target w) validTargets /\
  (forall v, ~ In (ToString v) validVariants ->
     getAttribute "variant" (set_variant rs v w) = Some (ToString v) /\
     get_variant (set_variant rs v w) = "primary" /\
     get_variant (set_variant rs v w) <> ToString v) /\
  (forall v, ~ In (ToString v) validSizes ->
     getAttribute "size" (set_size rs v w) = Some (ToString v) /\
     get_size (set_size rs v w) = "medium" /\
     get_size (set_size rs v w) <> ToString v).
Proof.
  split; [|split; [|split; [|split]]].
  - apply resolve_member. simpl. tauto.
  - apply resolve_member. simpl. tauto.
  - apply resolve_member. simpl. tauto.
  - intros v Hv.
    assert (Hget : getAttribute "variant" (set_variant rs v w) = Some (ToString v))
      by apply getAttribute_setAttribute.
    assert (Hres : get_variant (set_variant rs v w) = "primary").
    { unfold get_variant. rewrite Hget. apply resolve_invalid.
      now intros s [= <-]. }
    repeat split; [assumption | assumption |].
    rewrite Hres. intros E. apply Hv. rewrite <- E. simpl. tauto.
  - intros v Hv.
    assert (Hget : getAttribute "size" (set_size rs v w) = Some (ToString v))
      by apply getAttribute_setAttribute.
    assert (Hres : get_size (set_size rs v w) = "medium").
    { unfold get_size. rewrite Hget. apply resolve_invalid.
      now intros s [= <-]. }
    repeat split; [assumption | assumption |].
    rewrite Hres. intros E. apply Hv. rewrite <- E. simpl. tauto.
Qed.

(** ** Validation *)

Lemma forEach_unchanged (f : string -> M unit) (l : list string) (w : World) :
  (forall x, In x l -> f x w = (Normal tt, w)) ->
  forEach f l w = (Normal tt, w).
Proof.
  induction l as [|x l IH]; intros H; [reflexivity|].
  cbn [forEach]. unfold bind. rewrite (H x (or_introl eq_refl)).
  apply IH. intros y Hy. apply H. now right.
Qed.

Lemma upgradeProperties_no_props (rs : nat -> string) (w : World) :
  ownProps w = ∅ -> _upgradeProperties rs w = (Normal tt, w).
Proof.
  intros H. apply forEach_unchanged. intros x _.
  unfold upgradeProperty. now rewrite H, lookup_empty.
Qed.

(** ** Own properties across operations *)

Lemma setupRippleEffect_ownProps (w : World) :
  ownProps (setupRippleEffect w) = ownProps w.
Proof. unfold setupRippleEffect. case_matches; simpl; congruence. Qed.

Lemma render_ownProps (rs : nat -> string) (w : World) :
  ownProps (render rs w) = ownProps w.
Proof.
  rewrite render_unfold. cbv zeta. rewrite setupRippleEffect_ownProps. simpl.
  unfold getInstanceId. now destruct (truthy_attr (_instanceId w)).
Qed.

Lemma setAttribute_ownProps (rs : nat -> string) (name value : string)
    (w : World) :
  ownProps (setAttribute rs name value w) = ownProps w.
Proof.
  unfold setAttribute, attributeChangedCallback.
  destruct (includes observedAttributes name); [|reflexivity].
  destruct (_ && _); [|reflexivity]. now rewrite render_ownProps.
Qed.

Lemma removeAttribute_ownProps (rs : nat -> string) (name : string)
    (w : World) :
  ownProps (removeAttribute rs name w) = ownProps w.
Proof.
  unfold removeAttribute, attributeChangedCallback.
  destruct (attributes w !! name); [|reflexivity].
  destruct (includes observedAttributes name); [|reflexivity].
  destruct (_ && _); [|reflexivity]. now rewrite render_ownProps.
Qed.

Lemma call_setter_ownProps (rs : nat -> string) (prop : string) (v : Value)
    (w : World) :
  ownProps (call_setter rs prop v w) = ownProps w.
Proof.
  unfold call_setter, set_variant, set_size, set_disabled, set_loading,
    set_href.
  repeat match goal with
         | |- context [if ?c then _ else _] => destruct c
         end;
    auto using setAttribute_ownProps, removeAttribute_ownProps.
Qed.

Lemma set_ownProps_same (w : World) : set_ownProps (ownProps w) w = w.
Proof. now destruct w. Qed.

Lemma unshadowed_lookup (w : World) (name : string) :
  unshadowed w = true -> In name this_members -> ownProps w !! name = None.
Proof.
  unfold unshadowed. rewrite forallb_forall. intros H Hin.
  specialize (H name Hin). now destruct (ownProps w !! name).
Qed.

Lemma unshadowed_ext (w w' : World) :
  ownProps w = ownProps w' -> unshadowed w = unshadowed w'.
Proof. intros H. unfold unshadowed. now rewrite H. Qed.

Lemma accessor_is_member (prop : string) :
  prototype_accessor prop <> NoAccessor -> In prop this_members.
Proof.
  unfold prototype_accessor.
  destruct (includes ["variant"; "size"; "disabled"; "loading"; "href"] prop)
    eqn:H1.
  { intros _. apply includes_In in H1. apply includes_In.
    repeat (destruct H1 as [<-|H1]; [reflexivity|]). destruct H1. }
  match goal with
  | |- (if includes ?l prop then _ else _) <> _ -> _ =>
      destruct (includes l prop) eqn:H2
  end; [|congruence].
  intros _. apply includes_In in H2. apply includes_In.
  repeat (destruct H2 as [<-|H2]; [reflexivity|]). destruct H2.
Qed.

(** On an unshadowed instance the upgrade loop finds nothing to absorb
    under a name that has an accessor, and re-creates as it was any own
    property under another observed name. *)
Lemma upgradeProperty_unshadowed (rs : nat -> string) (prop : string)
    (w : World) :
  unshadowed w = true -> upgradeProperty rs prop w = (Normal tt, w).
Proof.
  intros Hu. unfold upgradeProperty.
  destruct (ownProps w !! prop) as [v|] eqn:Hown; [|reflexivity].
  destruct (prototype_accessor prop) eqn:Hacc.
  - assert (Hin : In prop this_members)
      by (apply accessor_is_member; congruence).
    rewrite (unshadowed_lookup w prop Hu Hin) in Hown. discriminate.
  - assert (Hin : In prop this_members)
      by (apply accessor_is_member; congruence).
    rewrite (unshadowed_lookup w prop Hu Hin) in Hown. discriminate.
  - unfold assign. cbn [ownProps set_ownProps].
    rewrite lookup_delete_eq, Hacc. f_equal.
    change (set_ownProps (<[prop := v]> (delete prop (ownProps w))) w = w).
    rewrite insert_delete_id by exact Hown. apply set_ownProps_same.
Qed.

Lemma upgradeProperties_unshadowed (rs : nat -> string) (w : World) :
  unshadowed w = true -> _upgradeProperties rs w = (Normal tt, w).
Proof.
  intros Hu. apply forEach_unchanged. intros x _.
  now apply upgradeProperty_unshadowed.
Qed.

Lemma connectedCallback_unshadowed (rs : nat -> string) (w : World) :
  unshadowed w = true ->
  connectedCallback rs w =
  (Normal tt, set_initialized true (setupEventListeners (render rs w))).
Proof.
  intros Hu. unfold connectedCallback, bind, lift.
  now rewrite upgradeProperties_unshadowed.
Qed.

Lemma createRipple_ownProps (b : nat) (w : World) :
  ownProps (createRipple b w) = ownProps w.
Proof.
  unfold createRipple.
  now destruct (get_disabled w || get_loading w || _).
Qed.

Lemma run_click_listeners_ownProps (b : nat) (w : World) :
  ownProps (run_click_listeners b w) = ownProps w.
Proof.
  unfold run_click_listeners.
  generalize (click_listeners_on b w). intros l. revert w.
  induction l as [|h l IH]; intros w; [reflexivity|].
  simpl. rewrite IH. apply createRipple_ownProps.
Qed.

Lemma assign_supported (rs : nat -> string) (prop : string) (v : Value)
    (w : World) :
  unshadowed w = true -> prototype_accessor prop <> NoAccessor ->
  ownProps (state_of (assign rs prop v w)) = ownProps w.
Proof.
  intros Hu Hacc. unfold assign.
  rewrite (unshadowed_lookup w prop Hu (accessor_is_member prop Hacc)).
  destruct (prototype_accessor prop); unfold state_of; cbn [snd];
    [apply call_setter_ownProps | reflexivity | congruence].
Qed.

Lemma step_ownProps (rs : nat -> string) (op : Op) (w : World) :
  supported op = true -> unshadowed w = true ->
  ownProps (step rs op w) = ownProps w.
Proof.
  intros Hop Hu. destruct op; cbn [step].
  - rewrite connectedCallback_unshadowed by assumption.
    unfold state_of, setupEventListeners.
    cbn [snd ownProps set_initialized set_hostKeydown set_hostClick].
    apply render_ownProps.
  - unfold disconnectedCallback, removeEventListeners.
    cbn [_rippleCleanup set_hostKeydown set_hostClick].
    now destruct (_rippleCleanup w) as [[b0 h0]|].
  - apply setAttribute_ownProps.
  - apply removeAttribute_ownProps.
  - apply assign_supported; [assumption|].
    cbn [supported] in Hop. intros E. rewrite E in Hop. discriminate.
  - apply render_ownProps.
  - destruct (btn w) as [b|]; [|reflexivity].
    now rewrite run_click_listeners_ownProps.
  - unfold ripple_timeout. now destruct (existsb _ (ripples w)).
Qed.

(** A history of supported operations on an unshadowed instance never
    creates, changes or removes an own property. *)
Lemma run_ownProps (rs : nat -> string) (ops : list Op) (w : World) :
  forallb supported ops = true -> unshadowed w = true ->
  ownProps (run rs ops w) = ownProps w.
Proof.
  unfold run. revert w.
  induction ops as [|op ops IH]; intros w Hops Hu; [reflexivity|].
  cbn [forallb] in Hops. apply andb_prop in Hops. destruct Hops as [Hop Hops].
  cbn [fold_left].
  rewrite IH; [now apply step_ownProps | assumption |].
  rewrite <- Hu. apply unshadowed_ext. now apply step_ownProps.
Qed.

Lemma run_unshadowed (rs : nat -> string) (ops : list Op) (w : World) :
  forallb supported ops = true -> unshadowed w = true ->
  unshadowed (run rs ops w) = true.
Proof.
  intros Hops Hu. rewrite <- Hu. apply unshadowed_ext.
  now apply run_ownProps.
Qed.


(** ** The activation gate *)

Lemma execute_onclick_handler_returns nf (w : World) :
  fst (execute_onclick_handler nf w) = Normal tt.
Proof.
  unfold execute_onclick_handler.
  destruct (truthy_attr (get_onclickHandler w)); [|reflexivity].
  unfold try_catch.
  destruct (run_handler nf _ w) as [[[]|e] w']; reflexivity.
Qed.

Lemma handleClick_ungated nf (w : World) :
  gated w = false ->
  handleClick nf w =
  (Normal tt,
   dispatch_lume_click (navigate (state_of (execute_onclick_handler nf w)))).
Proof.
  intros Hg. unfold handleClick. unfold gated in Hg. rewrite Hg.
  unfold bind, lift, state_of.
  pose proof (execute_onclick_handler_returns nf w) as Hr.
  destruct (execute_onclick_handler nf w) as [c w2]. simpl in Hr.
  now subst c.
Qed.


(** C1, as the code has it: a click that reaches [handleClick] on a gated
    instance only calls [preventDefault] and [stopPropagation] on the
    event, so no custom action is constructed or called, nothing is
    navigated and no [lume-click] is dispatched; a key pressed on a gated
    instance is ignored by [handleKeydown] altogether, which leaves the key
    event's default behaviour and propagation as they were. *)
Theorem gated_activation_does_nothing nf (w : World) :
  gated w = true ->
  fst (handleClick nf w) = Normal tt /\
  trace (state_of (handleClick nf w)) =
    (trace w ++ [EPreventDefault; EStopPropagation])%list /\
  attributes (state_of (handleClick nf w)) = attributes w /\
  defaultPrevented (event (state_of (handleClick nf w))) =
    defaultPrevented (event w) || cancelable (event w) /\
  propagationStopped (event (state_of (handleClick nf w))) = true /\
  handleKeydown nf w = (Normal tt, w).
Proof.
  intros Hg. unfold gated in Hg.
  unfold handleClick, handleKeydown. rewrite Hg.
  repeat split.
  - unfold state_of, stopPropagation, preventDefault, log. simpl.
    now rewrite <- app_assoc.
  - destruct (get_disabled w), (get_loading w);
      try discriminate; now rewrite ?andb_false_r.
Qed.

(** ** Navigation and the notification event *)

Lemma navigate_skipped (w : World) :
  truthy_attr (get_href w) = false \/ defaultPrevented (event w) = true ->
  navigate w = w.
Proof.
  intros [H|H]; unfold navigate; rewrite H;
    [reflexivity | now rewrite andb_false_r].
Qed.






(** ** Ripple listeners across renders *)

Lemma constructor_consistent attrs props layout :
  consistent (constructor attrs props layout).
Proof.
  repeat split.
  - discriminate.
  - discriminate.
  - intros r [].
Qed.

Lemma gated_ext (w w' : World) :
  attributes w = attributes w' -> gated w = gated w'.
Proof. intros H. unfold_getters. now rewrite H. Qed.

Lemma setupRippleEffect_tracked (w : World) :
  listeners_tracked w -> listeners_tracked (setupRippleEffect w).
Proof.
  unfold listeners_tracked, setupRippleEffect. intros H.
  destruct (btn w) as [b|]; [|assumption].
  destruct (negb (get_disabled w) && negb (get_loading w)); [|assumption].
  destruct (_rippleCleanup w) as [[b0 h0]|]; simpl in *; rewrite H.
  - rewrite filter_cons_False by (intros Hne; now apply Hne).
    reflexivity.
  - reflexivity.
Qed.

Lemma setupRippleEffect_listener (w : World) (b : nat) :
  btn w = Some b -> gated w = false ->
  exists h, _rippleCleanup (setupRippleEffect w) = Some (b, h).
Proof.
  unfold gated, setupRippleEffect. intros Hb Hg. rewrite Hb.
  apply orb_false_elim in Hg. destruct Hg as [-> ->]. simpl.
  destruct (_rippleCleanup w) as [[b0 h0]|]; simpl; eauto.
Qed.

Lemma setupRippleEffect_frame (w : World) :
  _initialized (setupRippleEffect w) = _initialized w /\
  hostClick (setupRippleEffect w) = hostClick w /\
  ripples (setupRippleEffect w) = ripples w /\
  fresh w <= fresh (setupRippleEffect w).
Proof.
  unfold setupRippleEffect.
  destruct (btn w) as [b|]; [|auto].
  destruct (negb (get_disabled w) && negb (get_loading w)); [|auto].
  destruct (_rippleCleanup w) as [[b0 h0]|]; simpl; auto.
Qed.

Lemma render_frame (rs : nat -> string) (w : World) :
  _initialized (render rs w) = _initialized w /\
  hostClick (render rs w) = hostClick w /\
  ripples (render rs w) = ripples w /\
  fresh w <= fresh (render rs w).
Proof.
  rewrite render_unfold. cbv zeta.
  match goal with
  | |- context [setupRippleEffect ?x] =>
      destruct (setupRippleEffect_frame x) as (-> & -> & -> & Hf);
      simpl in Hf
  end.
  unfold getInstanceId in *. simpl.
  destruct (truthy_attr (_instanceId w)); simpl in *; repeat split; lia.
Qed.

Lemma render_listener (rs : nat -> string) (w : World) :
  exists b, btn (render rs w) = Some b /\
    (gated (render rs w) = false ->
     exists h, _rippleCleanup (render rs w) = Some (b, h)).
Proof.
  rewrite render_unfold. cbv zeta.
  rewrite setupRippleEffect_btn. simpl. eexists. split; [reflexivity|].
  intros Hg. apply setupRippleEffect_listener; [reflexivity|].
  rewrite <- Hg. apply gated_ext.
  now rewrite setupRippleEffect_attributes.
Qed.

Lemma render_consistent (rs : nat -> string) (w : World) :
  listeners_tracked w -> ripple_ids_allocated w -> bound_after_init w ->
  consistent (render rs w).
Proof.
  intros Ht Hi Hb.
  destruct (render_frame rs w) as (Hinit & Hclick & Hrip & Hfresh).
  repeat split.
  - rewrite render_unfold. cbv zeta. apply setupRippleEffect_tracked.
    unfold listeners_tracked in *. simpl.
    unfold getInstanceId. now destruct (truthy_attr (_instanceId w)).
  - intros _. destruct (render_listener rs w) as [b [Hbtn Hl]].
    exists b. split; [assumption|]. intros _ Hg. now apply Hl.
  - unfold bound_after_init. now rewrite Hinit, Hclick.
  - unfold ripple_ids_allocated. rewrite Hrip. intros r Hr.
    specialize (Hi r Hr). lia.
Qed.

Lemma observed_gate_names (name : string) :
  includes observedAttributes name = false ->
  name <> "disabled" /\ name <> "loading".
Proof.
  intros H. apply includes_false in H.
  split; intros ->; apply H; simpl; tauto.
Qed.

Lemma gated_insert_other (name value : string) (w : World) :
  name <> "disabled" -> name <> "loading" ->
  gated (set_attributes (<[name := value]> (attributes w)) w) = gated w.
Proof.
  intros H1 H2. unfold_getters. simpl.
  now rewrite !lookup_insert_ne.
Qed.

Lemma gated_delete_other (name : string) (w : World) :
  name <> "disabled" -> name <> "loading" ->
  gated (set_attributes (delete name (attributes w)) w) = gated w.
Proof.
  intros H1 H2. unfold_getters. simpl.
  now rewrite !lookup_delete_ne.
Qed.

(** A store that differs only in attributes that leave the gate alone. *)
Lemma consistent_set_attributes (m : gmap string string) (w : World) :
  (_initialized w = true -> gated (set_attributes m w) = gated w) ->
  consistent w -> consistent (set_attributes m w).
Proof.
  intros Hg (Ht & Hr & Hb & Hi). repeat split; try assumption.
  intros Hinit. destruct (Hr Hinit) as [b [Hbtn Hl]].
  exists b. split; [assumption|]. intros Hc Hgate. apply Hl; [assumption|].
  rewrite <- Hgate. symmetry. now apply Hg.
Qed.

Lemma setAttribute_consistent (rs : nat -> string) (name value : string)
    (w : World) :
  consistent w -> consistent (setAttribute rs name value w).
Proof.
  intros Hc. pose proof Hc as (Ht & Hr & Hb & Hi).
  unfold setAttribute.
  destruct (includes observedAttributes name) eqn:Hobs.
  - unfold attributeChangedCallback. cbn [_initialized set_attributes].
    destruct (_initialized w) eqn:Hinit; cbn [andb].
    + destruct (bool_decide (attributes w !! name = Some value)) eqn:Hsame;
        cbn [negb].
      * apply bool_decide_eq_true in Hsame.
        rewrite (insert_id _ _ _ Hsame).
        now destruct w.
      * now apply render_consistent.
    + apply consistent_set_attributes; [intros E; congruence | assumption].
  - apply consistent_set_attributes; [|assumption].
    intros _. destruct (observed_gate_names _ Hobs).
    now apply gated_insert_other.
Qed.

Lemma removeAttribute_consistent (rs : nat -> string) (name : string)
    (w : World) :
  consistent w -> consistent (removeAttribute rs name w).
Proof.
  intros Hc. pose proof Hc as (Ht & Hr & Hb & Hi).
  unfold removeAttribute.
  destruct (attributes w !! name) as [old|] eqn:Hold; [|assumption].
  destruct (includes observedAttributes name) eqn:Hobs.
  - unfold attributeChangedCallback. cbn [_initialized set_attributes].
    destruct (_initialized w) eqn:Hinit; cbn [andb].
    + rewrite bool_decide_eq_false_2 by discriminate. cbn [negb].
      now apply render_consistent.
    + apply consistent_set_attributes; [intros E; congruence | assumption].
  - apply consistent_set_attributes; [|assumption].
    intros _. destruct (observed_gate_names _ Hobs).
    now apply gated_delete_other.
Qed.

Lemma call_setter_consistent (rs : nat -> string) (prop : string) (v : Value)
    (w : World) :
  consistent w -> consistent (call_setter rs prop v w).
Proof.
  intros Hc. unfold call_setter, set_variant, set_size, set_disabled,
    set_loading, set_href.
  repeat match goal with
         | |- context [if ?c then _ else _] => destruct c
         end;
    auto using setAttribute_consistent, removeAttribute_consistent.
Qed.

Lemma assign_consistent (rs : nat -> string) (prop : string) (v : Value)
    (w : World) :
  consistent w -> consistent (state_of (assign rs prop v w)).
Proof.
  intros Hc. unfold assign.
  destruct (ownProps w !! prop); [exact Hc|].
  destruct (prototype_accessor prop); unfold state_of; cbn [snd].
  - now apply call_setter_consistent.
  - assumption.
  - exact Hc.
Qed.

Lemma upgradeProperty_consistent (rs : nat -> string) (prop : string)
    (w : World) :
  consistent w -> consistent (state_of (upgradeProperty rs prop w)).
Proof.
  intros Hc. unfold upgradeProperty.
  destruct (ownProps w !! prop) as [value|]; [|assumption].
  apply assign_consistent. exact Hc.
Qed.

Lemma forEach_consistent (f : string -> M unit) (l : list string) :
  (forall x w, consistent w -> consistent (state_of (f x w))) ->
  forall w, consistent w -> consistent (state_of (forEach f l w)).
Proof.
  intros Hf. induction l as [|x l IH]; intros w Hc; [assumption|].
  cbn [forEach]. unfold bind.
  specialize (Hf x w Hc). destruct (f x w) as [[[]|e] w1]; simpl in Hf.
  - now apply IH.
  - assumption.
Qed.

Lemma connectedCallback_consistent (rs : nat -> string) (w : World) :
  consistent w -> consistent (state_of (connectedCallback rs w)).
Proof.
  intros Hc. unfold connectedCallback, bind, lift.
  pose proof (forEach_consistent (upgradeProperty rs) observedAttributes
                (upgradeProperty_consistent rs) w Hc) as Hu.
  fold (_upgradeProperties rs) in Hu.
  destruct (_upgradeProperties rs w) as [[[]|e] w1]; simpl in Hu;
    [|assumption].
  destruct Hu as (Ht & Hr & Hb & Hi).
  destruct (render_consistent rs w1 Ht Hi Hb) as (Ht' & Hr' & Hb' & Hi').
  unfold state_of. cbn [snd].
  destruct (render_frame rs w1) as (Hinit & _).
  repeat split; try assumption.
  intros _. destruct (render_listener rs w1) as [b [Hbtn Hl]].
  exists b. split; [exact Hbtn|]. intros _ Hg. apply Hl. exact Hg.
Qed.

Lemma disconnectedCallback_consistent (w : World) :
  consistent w -> consistent (disconnectedCallback w).
Proof.
  intros (Ht & Hr & Hb & Hi).
  unfold disconnectedCallback, removeEventListeners. simpl.
  unfold listeners_tracked in Ht.
  destruct (_rippleCleanup w) as [[b0 h0]|] eqn:Hcl.
  - repeat split.
    + unfold listeners_tracked, removeClickListener. simpl. rewrite Ht.
      now rewrite filter_cons_False by (intros Hne; now apply Hne).
    + intros Hinit. destruct (Hr Hinit) as [b [Hbtn _]].
      exists b. split; [assumption | discriminate].
    + discriminate.
    + exact Hi.
  - repeat split.
    + unfold listeners_tracked. simpl. now rewrite Hcl.
    + intros Hinit. destruct (Hr Hinit) as [b [Hbtn _]].
      exists b. split; [assumption | discriminate].
    + discriminate.
    + exact Hi.
Qed.

Lemma createRipple_noop (b : nat) (w : World) :
  gated w = true \/ get_variant w = "link" -> createRipple b w = w.
Proof.
  unfold gated, createRipple. intros [H|H]; rewrite H;
    [reflexivity | now rewrite orb_true_r].
Qed.

Lemma createRipple_consistent (b : nat) (w : World) :
  consistent w -> consistent (createRipple b w).
Proof.
  intros Hc. unfold createRipple.
  destruct (get_disabled w || get_loading w || _); [assumption|].
  destruct Hc as (Ht & Hr & Hb & Hi).
  repeat split; try assumption.
  unfold ripple_ids_allocated. simpl. intros r Hr'.
  apply in_app_or in Hr'. destruct Hr' as [Hr'|[<-|[]]].
  - specialize (Hi r Hr'). lia.
  - simpl. lia.
Qed.

Lemma run_click_listeners_consistent (b : nat) (w : World) :
  consistent w -> consistent (run_click_listeners b w).
Proof.
  unfold run_click_listeners.
  generalize (click_listeners_on b w). intros l. revert w.
  induction l as [|h l IH]; intros w Hc; [assumption|].
  simpl. apply IH. now apply createRipple_consistent.
Qed.

Lemma ripple_timeout_consistent (id : nat) (w : World) :
  consistent w -> consistent (ripple_timeout id w).
Proof.
  intros Hc. unfold ripple_timeout.
  destruct (existsb _ (ripples w)); [|assumption].
  destruct Hc as (Ht & Hr & Hb & Hi).
  repeat split; try assumption.
  unfold ripple_ids_allocated. simpl. intros r Hr'.
  apply list_elem_of_In, list_elem_of_filter in Hr'.
  apply Hi, list_elem_of_In, Hr'.
Qed.

Lemma step_consistent (rs : nat -> string) (op : Op) (w : World) :
  consistent w -> consistent (step rs op w).
Proof.
  intros Hc. destruct op; simpl.
  - now apply connectedCallback_consistent.
  - now apply disconnectedCallback_consistent.
  - now apply setAttribute_consistent.
  - now apply removeAttribute_consistent.
  - now apply assign_consistent.
  - destruct Hc as (Ht & Hr & Hb & Hi). now apply render_consistent.
  - destruct (btn w) as [b|] eqn:Hb; [|assumption].
    apply run_click_listeners_consistent. exact Hc.
  - now apply ripple_timeout_consistent.
Qed.

Lemma run_consistent (rs : nat -> string) (ops : list Op) (w : World) :
  consistent w -> consistent (run rs ops w).
Proof.
  unfold run. revert w.
  induction ops as [|op ops IH]; intros w Hc; [assumption|].
  simpl. apply IH. now apply step_consistent.
Qed.

Lemma run_click_listeners_noop (b : nat) (w : World) :
  gated w = true \/ get_variant w = "link" -> run_click_listeners b w = w.
Proof.
  intros H. unfold run_click_listeners.
  induction (click_listeners_on b w) as [|h l IH]; [reflexivity|].
  simpl. now rewrite createRipple_noop.
Qed.






(** ** Property upgrade *)

Lemma upgradeProperty_no_accessor (rs : nat -> string) (prop : string)
    (value : Value) (w : World) :
  ownProps w !! prop = Some value -> prototype_accessor prop = NoAccessor ->
  attributes (state_of (upgradeProperty rs prop w)) = attributes w /\
  ownProps (state_of (upgradeProperty rs prop w)) !! prop = Some value.
Proof.
  intros Hown Hacc. unfold upgradeProperty, assign. rewrite Hown. simpl.
  rewrite lookup_delete_eq, Hacc. simpl.
  split; [reflexivity | apply lookup_insert_eq].
Qed.

Lemma upgradeProperty_getter_only (rs : nat -> string) (prop : string)
    (value : Value) (w : World) :
  ownProps w !! prop = Some value -> prototype_accessor prop = GetterOnly ->
  returned (upgradeProperty rs prop w) = false /\
  attributes (state_of (upgradeProperty rs prop w)) = attributes w.
Proof.
  intros Hown Hacc. unfold upgradeProperty, assign. rewrite Hown. simpl.
  rewrite lookup_delete_eq, Hacc. now split.
Qed.

Lemma upgradeProperty_setter (rs : nat -> string) (prop : string)
    (value : Value) (w : World) :
  ownProps w !! prop = Some value -> prototype_accessor prop = GetterAndSetter ->
  upgradeProperty rs prop w =
  (Normal tt,
   call_setter rs prop value (set_ownProps (delete prop (ownProps w)) w)).
Proof.
  intros Hown Hacc. unfold upgradeProperty, assign. rewrite Hown. simpl.
  now rewrite lookup_delete_eq, Hacc.
Qed.

(** C5 fails on the code.  An own property ["bg-color"] set before the
    upgrade has no setter to go through: after [connectedCallback] it is
    still an own property and the attribute is still absent.  An own
    property ["target"] meets a getter without a setter: the assignment
    throws, and [connectedCallback] stops before rendering and before
    attaching listeners. *)
Theorem upgrade_misses_properties_without_setter :
  (fst (connectedCallback sample_random early_bg_color) = Normal tt /\
   getAttribute "bg-color"
     (state_of (connectedCallback sample_random early_bg_color)) = None /\
   ownProps (state_of (connectedCallback sample_random early_bg_color))
     !! "bg-color" = Some (VStr "red")) /\
  (fst (connectedCallback sample_random early_target) =
     Throw "TypeError: Cannot set property target which has only a getter" /\
   getAttribute "target"
     (state_of (connectedCallback sample_random early_target)) = None /\
   btn (state_of (connectedCallback sample_random early_target)) = None /\
   hostClick (state_of (connectedCallback sample_random early_target)) = false).
Proof. vm_compute. repeat split. Qed.

(** * Concrete runs *)

(** C1 as stated fails for the keyboard: on a connected, disabled instance
    an Enter keydown is neither default-prevented nor stopped. *)
Lemma gated_keydown_not_suppressed :
  gated (set_event enter_keydown disabled_instance) = true /\
  hostKeydown disabled_instance = true /\
  ~ In EPreventDefault
      (trace (state_of (keyboard_activation throwing_engine
                          (set_event enter_keydown disabled_instance)))) /\
  ~ In EStopPropagation
      (trace (state_of (keyboard_activation throwing_engine
                          (set_event enter_keydown disabled_instance)))) /\
  defaultPrevented
    (event (state_of (keyboard_activation throwing_engine
                        (set_event enter_keydown disabled_instance)))) = false /\
  propagationStopped
    (event (state_of (keyboard_activation throwing_engine
                        (set_event enter_keydown disabled_instance)))) = false.
Proof. vm_compute. repeat split; intros []. Qed.

(** C6 as stated fails for the empty string: written through the [href]
    setter it clears the attribute, and the getter returns [null]. *)
Lemma href_empty_string_reads_back_null :
  get_href (set_href sample_random (VStr "") plain_instance) = None /\
  of_attr (get_href (set_href sample_random (VStr "") plain_instance))
    <> VStr "".
Proof. vm_compute. split; [reflexivity | discriminate]. Qed.



Lemma enum_getters_resolve_witness :
  (get_variant unknown_enums = "primary" /\
   get_size unknown_enums = "medium" /\
   get_target unknown_enums = "_self") /\
  (get_variant known_enums = "ghost" /\
   get_size known_enums = "large" /\
   get_target known_enums = "_blank").
Proof.
  destruct (enum_getters_resolve unknown_enums) as (V & S & T & _).
  destruct (enum_getters_resolve known_enums) as (_ & _ & _ & V' & S' & T').
  split; split; [|split| |split].
  - apply V. intros s H. vm_compute in H. injection H as <-.
    simpl. intuition discriminate.
  - apply S. intros s H. vm_compute in H. injection H as <-.
    simpl. intuition discriminate.
  - apply T. intros s H. vm_compute in H. injection H as <-.
    simpl. intuition discriminate.
  - apply V'; [vm_compute; reflexivity | simpl; tauto].
  - apply S'; [vm_compute; reflexivity | simpl; tauto].
  - apply T'; [vm_compute; reflexivity | simpl; tauto].
Defined.

Lemma render_idempotent_witness :
  innerHTML (render sample_random
               (set_trace [EStopPropagation]
                  (render sample_random known_enums))) =
  innerHTML (render sample_random known_enums).
Proof.
  destruct (render_idempotent sample_random known_enums) as (_ & _ & H).
  apply H; vm_compute; reflexivity.
Defined.

Lemma flag_and_href_write_then_read_witness :
  get_href (set_href sample_random (VStr "https://example.com") plain_instance)
    = Some "https://example.com" /\
  innerHTML (set_disabled sample_random (VBool true) plain_instance)
    = innerHTML plain_instance.
Proof.
  split.
  - destruct (flag_and_href_write_then_read sample_random plain_instance
                (VBool true)) as (_ & _ & _ & _ & H & _).
    apply H. discriminate.
  - destruct (flag_and_href_write_then_read sample_random plain_instance
                (VBool true)) as (_ & _ & _ & _ & _ & _ & H).
    apply H. vm_compute; reflexivity.
Defined.

Lemma enum_reads_are_members_witness :
  getAttribute "variant" (set_variant sample_random (VStr "neon") plain_instance)
    = Some "neon" /\
  get_variant (set_variant sample_random (VStr "neon") plain_instance)
    = "primary" /\
  get_size (set_size sample_random (VStr "huge") plain_instance) = "medium".
Proof.
  destruct (enum_reads_are_members sample_random plain_instance)
    as (_ & _ & _ & V & S).
  destruct (V (VStr "neon")) as (H1 & H2 & _).
  { simpl. intuition discriminate. }
  destruct (S (VStr "huge")) as (_ & H3 & _).
  { simpl. intuition discriminate. }
  repeat split; assumption.
Defined.


Lemma gated_activation_does_nothing_witness :
  gated (set_event pointer_click disabled_instance) = true /\
  trace (state_of (handleClick throwing_engine
                     (set_event pointer_click disabled_instance))) =
    (trace (set_event pointer_click disabled_instance) ++
     [EPreventDefault; EStopPropagation])%list /\
  handleKeydown throwing_engine (set_event enter_keydown disabled_instance) =
    (Normal tt, set_event enter_keydown disabled_instance).
Proof.
  assert (Hg : gated (set_event pointer_click disabled_instance) = true)
    by (vm_compute; reflexivity).
  assert (Hg' : gated (set_event enter_keydown disabled_instance) = true)
    by (vm_compute; reflexivity).
  split; [exact Hg | split].
  - apply (gated_activation_does_nothing throwing_engine
             (set_event pointer_click disabled_instance) Hg).
  - apply (gated_activation_does_nothing throwing_engine
             (set_event enter_keydown disabled_instance) Hg').
Defined.




(** * Further properties *)

(** ** An induction principle for histories *)

Lemma set_attributes_same (w : World) : set_attributes (attributes w) w = w.
Proof. now destruct w. Qed.

Section HistoryInvariant.

Variable rs : nat -> string.
Variable P : World -> Prop.

Hypothesis P_rerender :
  forall w m, P w -> P (render rs (set_attributes m w)).
Hypothesis P_connect :
  forall w, P w -> P (set_initialized true (setupEventListeners (render rs w))).
Hypothesis P_insert :
  forall w name value, P w ->
    _initialized w = false \/ includes observedAttributes name = false ->
    P (set_attributes (<[name := value]> (attributes w)) w).
Hypothesis P_delete :
  forall w name, P w ->
    _initialized w = false \/ includes observedAttributes name = false ->
    P (set_attributes (delete name (attributes w)) w).
Hypothesis P_props : forall w m, P w -> P (set_ownProps m w).
Hypothesis P_disconnect : forall w, P w -> P (removeEventListeners w).
Hypothesis P_ripple :
  forall w b, P w -> btn w = Some b -> P (createRipple b w).
Hypothesis P_event : forall w ev, P w -> P (set_event ev w).
Hypothesis P_timeout : forall w r, P w -> P (ripple_timeout r w).

Lemma setAttribute_keeps (name value : string) (w : World) :
  P w -> P (setAttribute rs name value w).
Proof.
  intros HP. unfold setAttribute.
  destruct (includes observedAttributes name) eqn:Hobs;
    [|apply P_insert; auto].
  unfold attributeChangedCallback. cbn [_initialized set_attributes].
  destruct (_initialized w) eqn:Hinit; cbn [andb];
    [|apply P_insert; auto].
  destruct (bool_decide (attributes w !! name = Some value)) eqn:Hsame;
    cbn [negb].
  - apply bool_decide_eq_true in Hsame. rewrite (insert_id _ _ _ Hsame).
    now rewrite set_attributes_same.
  - now apply P_rerender.
Qed.

Lemma removeAttribute_keeps (name : string) (w : World) :
  P w -> P (removeAttribute rs name w).
Proof.
  intros HP. unfold removeAttribute.
  destruct (attributes w !! name) as [old|]; [|assumption].
  destruct (includes observedAttributes name) eqn:Hobs;
    [|apply P_delete; auto].
  unfold attributeChangedCallback. cbn [_initialized set_attributes].
  destruct (_initialized w) eqn:Hinit; cbn [andb];
    [|apply P_delete; auto].
  rewrite bool_decide_eq_false_2 by discriminate. cbn [negb].
  now apply P_rerender.
Qed.

Lemma call_setter_keeps (prop : string) (v : Value) (w : World) :
  P w -> P (call_setter rs prop v w).
Proof.
  intros HP. unfold call_setter, set_variant, set_size, set_disabled,
    set_loading, set_href.
  repeat match goal with
         | |- context [if ?c then _ else _] => destruct c
         end;
    auto using setAttribute_keeps, removeAttribute_keeps.
Qed.

Lemma assign_keeps (prop : string) (v : Value) (w : World) :
  P w -> P (state_of (assign rs prop v w)).
Proof.
  intros HP. unfold assign.
  destruct (ownProps w !! prop); [now apply P_props|].
  destruct (prototype_accessor prop); unfold state_of; cbn [snd].
  - now apply call_setter_keeps.
  - assumption.
  - now apply P_props.
Qed.

Lemma upgradeProperty_keeps (prop : string) (w : World) :
  P w -> P (state_of (upgradeProperty rs prop w)).
Proof.
  intros HP. unfold upgradeProperty.
  destruct (ownProps w !! prop) as [value|]; [|assumption].
  apply assign_keeps. now apply P_props.
Qed.

Lemma forEach_keeps (f : string -> M unit) (l : list string) :
  (forall x w, P w -> P (state_of (f x w))) ->
  forall w, P w -> P (state_of (forEach f l w)).
Proof.
  intros Hf. induction l as [|x l IH]; intros w HP; [assumption|].
  cbn [forEach]. unfold bind.
  specialize (Hf x w HP). destruct (f x w) as [[[]|e] w1]; simpl in Hf.
  - now apply IH.
  - assumption.
Qed.

Lemma connectedCallback_keeps (w : World) :
  P w -> P (state_of (connectedCallback rs w)).
Proof.
  intros HP. unfold connectedCallback, bind, lift.
  pose proof (forEach_keeps (upgradeProperty rs) observedAttributes
                upgradeProperty_keeps w HP) as Hu.
  fold (_upgradeProperties rs) in Hu.
  destruct (_upgradeProperties rs w) as [[[]|e] w1]; simpl in Hu;
    [|assumption].
  unfold state_of. cbn [snd]. now apply P_connect.
Qed.

Lemma createRipple_btn (b : nat) (w : World) :
  btn (createRipple b w) = btn w.
Proof.
  unfold createRipple.
  now destruct (get_disabled w || get_loading w || _).
Qed.

Lemma run_click_listeners_keeps (b : nat) (w : World) :
  P w -> btn w = Some b -> P (run_click_listeners b w).
Proof.
  unfold run_click_listeners.
  generalize (click_listeners_on b w). intros l. revert w.
  induction l as [|h l IH]; intros w HP Hb; [assumption|].
  simpl. apply IH; [now apply P_ripple|].
  now rewrite createRipple_btn.
Qed.

Lemma step_keeps (op : Op) (w : World) : P w -> P (step rs op w).
Proof.
  intros HP. destruct op; simpl.
  - now apply connectedCallback_keeps.
  - now apply P_disconnect.
  - now apply setAttribute_keeps.
  - now apply removeAttribute_keeps.
  - now apply assign_keeps.
  - rewrite <- (set_attributes_same w) at 1. now apply P_rerender.
  - destruct (btn w) as [b|] eqn:Hb; [|assumption].
    apply run_click_listeners_keeps; [now apply P_event | exact Hb].
  - now apply P_timeout.
Qed.

Lemma run_keeps (ops : list Op) (w : World) : P w -> P (run rs ops w).
Proof.
  unfold run. revert w.
  induction ops as [|op ops IH]; intros w HP; [assumption|].
  simpl. apply IH. now apply step_keeps.
Qed.

End HistoryInvariant.

(** ** The markup follows the attributes *)

Lemma generateInlineStyles_observed (w w' : World) :
  (forall n, includes observedAttributes n = true ->
             attributes w !! n = attributes w' !! n) ->
  generateInlineStyles w = generateInlineStyles w'.
Proof.
  intros H. unfold generateInlineStyles. unfold_getters.
  repeat match goal with
         | |- context [attributes w !! ?n] => rewrite (H n eq_refl)
         end.
  reflexivity.
Qed.

Lemma template_observed (id styles : string) (w w' : World) :
  (forall n, includes observedAttributes n = true ->
             attributes w !! n = attributes w' !! n) ->
  template id styles w = template id styles w'.
Proof.
  intros H. unfold template, glowEffect, customHoverActiveStyles.
  unfold_getters.
  repeat match goal with
         | |- context [attributes w !! ?n] => rewrite (H n eq_refl)
         end.
  reflexivity.
Qed.

Lemma click_listeners_on_nil (b : nat) (w : World) :
  click_listeners_on b w = [] <->
  (forall l, In l (clickListeners w) -> fst l <> b).
Proof.
  unfold click_listeners_on.
  induction (clickListeners w) as [|l ls IH].
  - split; [intros _ l [] | reflexivity].
  - destruct (decide (fst l = b)) as [Heq|Hne].
    + rewrite filter_cons_True by assumption. split; [discriminate|].
      intros H. destruct (H l (or_introl eq_refl) Heq).
    + rewrite filter_cons_False by assumption. rewrite IH. split.
      * intros H l' [<-|Hin]; [assumption | now apply H].
      * intros H l' Hin. apply H. now right.
Qed.

Lemma removeClickListener_subset (b h : nat) (w : World) (l : nat * nat) :
  In l (clickListeners (removeClickListener b h w)) -> In l (clickListeners w).
Proof.
  unfold removeClickListener. simpl. intros H.
  apply list_elem_of_In, list_elem_of_filter in H.
  now apply list_elem_of_In.
Qed.

Lemma getInstanceId_frame (rs : nat -> string) (w : World) :
  fresh (snd (getInstanceId rs w)) = fresh w /\
  clickListeners (snd (getInstanceId rs w)) = clickListeners w.
Proof. unfold getInstanceId. now destruct (truthy_attr (_instanceId w)). Qed.

Lemma getInstanceId_drawn_once (rs : nat -> string) (w : World) :
  id_drawn_once rs w -> id_drawn_once rs (snd (getInstanceId rs w)).
Proof.
  unfold id_drawn_once, getInstanceId.
  intros [[Hn Hc]|[Hs Hc]].
  - rewrite Hn. simpl. right. now rewrite Hc.
  - rewrite Hs. simpl. right. now split.
Qed.

Lemma setupRippleEffect_gated (w : World) :
  gated w = true -> setupRippleEffect w = w.
Proof.
  unfold gated, setupRippleEffect. intros Hg.
  destruct (btn w); [|reflexivity].
  now rewrite <- negb_orb, Hg.
Qed.

Lemma setupRippleEffect_drawn_once (rs : nat -> string) (w : World) :
  id_drawn_once rs w -> id_drawn_once rs (setupRippleEffect w).
Proof.
  unfold id_drawn_once, setupRippleEffect. intros H.
  destruct (btn w); [|assumption].
  destruct (negb _ && negb _); [|assumption].
  now destruct (_rippleCleanup w) as [[? ?]|].
Qed.

Lemma setupRippleEffect_allocated (w : World) :
  elements_allocated w -> elements_allocated (setupRippleEffect w).
Proof.
  unfold setupRippleEffect. intros H.
  destruct (btn w) as [b|] eqn:Hbtn; [|exact H].
  destruct (negb _ && negb _); [|exact H].
  destruct H as [Hb Hl]. specialize (Hb b Hbtn). split.
  - intros b'. destruct (_rippleCleanup w) as [[? ?]|]; simpl;
      rewrite Hbtn; intros [= <-]; lia.
  - intros l Hin.
    destruct (_rippleCleanup w) as [[b0 h0]|]; simpl in *;
      apply in_app_or in Hin; destruct Hin as [Hin|[<-|[]]];
      try (simpl; lia).
    + apply list_elem_of_In, list_elem_of_filter in Hin.
      destruct Hin as [_ Hin]. apply list_elem_of_In in Hin.
      specialize (Hl l Hin). lia.
    + specialize (Hl l Hin). lia.
Qed.

(** What one [render] leaves behind, whatever the store was. *)
Lemma render_result (rs : nat -> string) (w : World) :
  id_drawn_once rs w -> elements_allocated w ->
  (exists id, _instanceId (render rs w) = Some id /\ id <> "" /\
     innerHTML (render rs w) =
       template id (generateInlineStyles (render rs w)) (render rs w)) /\
  id_drawn_once rs (render rs w) /\
  elements_allocated (render rs w) /\
  btn (render rs w) = Some (fresh w) /\
  (gated (render rs w) = true -> click_listeners_on (fresh w) (render rs w) = []).
Proof.
  intros Hid [Hbtn Hls].
  assert (Hattr : attributes (render rs w) = attributes w)
    by apply render_attributes.
  destruct (getInstanceId_frame rs w) as [Hfr Hcl].
  split.
  { exists (fst (getInstanceId rs w)).
    split; [apply render_instanceId|].
    split; [apply getInstanceId_truthy|].
    rewrite render_innerHTML.
    rewrite (generateInlineStyles_ext (render rs w) w Hattr).
    apply template_ext. now rewrite getInstanceId_attributes. }
  rewrite render_unfold in *. cbv zeta in *.
  match goal with
  | |- context [setupRippleEffect ?x] => set (w3 := x) in *
  end.
  assert (Hbtn3 : btn w3 = Some (fresh w)).
  { subst w3. simpl. now rewrite Hfr. }
  assert (Hall3 : elements_allocated w3).
  { subst w3. split; simpl.
    - rewrite Hfr. intros b [= <-]. lia.
    - rewrite Hfr, Hcl. intros l Hin. specialize (Hls l Hin). lia. }
  split; [|split; [|split]].
  - apply setupRippleEffect_drawn_once. subst w3.
    now apply getInstanceId_drawn_once.
  - now apply setupRippleEffect_allocated.
  - now rewrite setupRippleEffect_btn.
  - intros Hg.
    assert (Hg3 : gated w3 = true).
    { rewrite <- Hg. apply gated_ext.
      now rewrite setupRippleEffect_attributes. }
    rewrite (setupRippleEffect_gated w3 Hg3).
    apply click_listeners_on_nil. intros l Hin.
    subst w3. simpl in Hin. rewrite Hcl in Hin.
    specialize (Hls l Hin). lia.
Qed.

Lemma constructor_reconciled rs attrs props layout :
  reconciled rs (constructor attrs props layout).
Proof.
  split; [|split; [|split; [|split]]].
  - discriminate.
  - now left.
  - split; [discriminate | intros l []].
  - discriminate.
  - intros r [].
Qed.

Lemma reconciled_rerender (rs : nat -> string) (w : World)
    (m : gmap string string) :
  reconciled rs w -> reconciled rs (render rs (set_attributes m w)).
Proof.
  intros (_ & Hid & Hal & _ & Hrp).
  destruct (render_result rs (set_attributes m w) Hid Hal)
    as (Hs & Hid' & Hal' & Hb & Hg).
  split; [|split; [|split; [|split]]]; try assumption.
  - intros _. exact Hs.
  - intros _ Hgt b Hbtn. rewrite Hb in Hbtn. injection Hbtn as <-.
    now apply Hg.
  - destruct (render_frame rs (set_attributes m w)) as (_ & _ & Hrip & Hfr).
    intros r Hr. rewrite Hrip in Hr. specialize (Hrp r Hr).
    simpl in Hfr. lia.
Qed.

Lemma reconciled_connect (rs : nat -> string) (w : World) :
  reconciled rs w ->
  reconciled rs (set_initialized true (setupEventListeners (render rs w))).
Proof.
  intros (_ & Hid & Hal & _ & Hrp).
  destruct (render_result rs w Hid Hal) as (Hs & Hid' & Hal' & Hb & Hg).
  split; [|split; [|split; [|split]]].
  - intros _. exact Hs.
  - exact Hid'.
  - exact Hal'.
  - intros _ Hgt b Hbtn. change (btn (render rs w) = Some b) in Hbtn.
    rewrite Hb in Hbtn. injection Hbtn as <-. now apply Hg.
  - destruct (render_frame rs w) as (_ & _ & Hrip & Hfr).
    intros r Hr. change (In r (ripples (render rs w))) in Hr.
    rewrite Hrip in Hr. specialize (Hrp r Hr).
    change (parentNode r < fresh (render rs w)). lia.
Qed.

Lemma reconciled_attributes (rs : nat -> string) (w : World)
    (m : gmap string string) :
  _initialized w = false \/
  (forall n, includes observedAttributes n = true ->
             m !! n = attributes w !! n) ->
  reconciled rs w -> reconciled rs (set_attributes m w).
Proof.
  intros Hcase (Hs & Hid & Hal & Hg & Hrp).
  split; [|split; [|split; [|split]]]; try assumption.
  - intros Hinit. change (_initialized w = true) in Hinit.
    destruct Hcase as [Hf|Hobs]; [congruence|].
    destruct (Hs Hinit) as [id (Hi & Hne & Hm)].
    exists id. split; [exact Hi|]. split; [exact Hne|].
    change (innerHTML w =
            template id (generateInlineStyles (set_attributes m w))
                     (set_attributes m w)).
    rewrite Hm.
    rewrite (generateInlineStyles_observed (set_attributes m w) w)
      by exact Hobs.
    symmetry. now apply template_observed.
  - intros Hinit Hgt b Hbtn. change (_initialized w = true) in Hinit.
    destruct Hcase as [Hf|Hobs]; [congruence|].
    apply (Hg Hinit); [|exact Hbtn].
    rewrite <- Hgt. unfold gated, get_disabled, get_loading, hasAttribute.
    cbn [attributes set_attributes].
    now rewrite (Hobs "disabled" eq_refl), (Hobs "loading" eq_refl).
Qed.

Lemma reconciled_insert (rs : nat -> string) (w : World) (name value : string) :
  reconciled rs w ->
  _initialized w = false \/ includes observedAttributes name = false ->
  reconciled rs (set_attributes (<[name := value]> (attributes w)) w).
Proof.
  intros HR [Hf|Hobs]; apply reconciled_attributes; auto.
  right. intros n Hn. apply lookup_insert_ne. congruence.
Qed.

Lemma reconciled_delete (rs : nat -> string) (w : World) (name : string) :
  reconciled rs w ->
  _initialized w = false \/ includes observedAttributes name = false ->
  reconciled rs (set_attributes (delete name (attributes w)) w).
Proof.
  intros HR [Hf|Hobs]; apply reconciled_attributes; auto.
  right. intros n Hn. apply lookup_delete_ne. congruence.
Qed.

Lemma reconciled_disconnect (rs : nat -> string) (w : World) :
  reconciled rs w -> reconciled rs (removeEventListeners w).
Proof.
  intros (Hs & Hid & Hal & Hg & Hrp). unfold removeEventListeners. simpl.
  destruct (_rippleCleanup w) as [[b0 h0]|];
    [|split; [|split; [|split; [|split]]]; assumption].
  split; [|split; [|split; [|split]]]; try assumption.
  - destruct Hal as [Hb Hl]. split; [exact Hb|].
    intros l Hin. apply removeClickListener_subset in Hin. now apply Hl.
  - intros Hinit Hgt b Hbtn. apply click_listeners_on_nil.
    intros l Hin. apply removeClickListener_subset in Hin.
    revert l Hin. apply click_listeners_on_nil. now apply Hg.
Qed.

Lemma reconciled_ripple (rs : nat -> string) (w : World) (b : nat) :
  reconciled rs w -> btn w = Some b -> reconciled rs (createRipple b w).
Proof.
  intros HR Hbtn. unfold createRipple.
  destruct (get_disabled w || get_loading w || _); [assumption|].
  destruct HR as (Hs & Hid & [Hb Hl] & Hg & Hrp).
  split; [|split; [|split; [|split]]]; try assumption.
  - split.
    + intros b' Hbtn'. specialize (Hb b' Hbtn'). simpl. lia.
    + intros l Hin. specialize (Hl l Hin). simpl. lia.
  - intros r Hr. simpl in Hr. apply in_app_or in Hr.
    destruct Hr as [Hr|[<-|[]]]; simpl.
    + specialize (Hrp r Hr). lia.
    + specialize (Hb b Hbtn). lia.
Qed.

Lemma reconciled_timeout (rs : nat -> string) (w : World) (r : nat) :
  reconciled rs w -> reconciled rs (ripple_timeout r w).
Proof.
  intros HR. unfold ripple_timeout.
  destruct (existsb _ (ripples w)); [|assumption].
  destruct HR as (Hs & Hid & Hal & Hg & Hrp).
  split; [|split; [|split; [|split]]]; try assumption.
  intros x Hx. simpl in Hx.
  apply list_elem_of_In, list_elem_of_filter in Hx.
  apply Hrp, list_elem_of_In, Hx.
Qed.

Lemma run_reconciled (rs : nat -> string) (ops : list Op) (w : World) :
  reconciled rs w -> reconciled rs (run rs ops w).
Proof.
  apply run_keeps.
  - intros; now apply reconciled_rerender.
  - intros; now apply reconciled_connect.
  - intros; now apply reconciled_insert.
  - intros; now apply reconciled_delete.
  - intros w' m H. exact H.
  - intros; now apply reconciled_disconnect.
  - intros; now apply reconciled_ripple.
  - intros w' ev H. exact H.
  - intros; now apply reconciled_timeout.
Qed.

(** X1: over a history of supported operations on an unshadowed
    instance, the instance stays unshadowed with the own properties it
    started with, and at every point after its first connection the markup
    in the shadow root is the template of the current attribute bag:
    rendering again would write the same text. *)
Theorem markup_follows_attributes (rs : nat -> string)
    (attrs : gmap string string) (props : gmap string Value)
    (layout : nat -> Rect) (ops : list Op) :
  unshadowed (constructor attrs props layout) = true ->
  forallb supported ops = true ->
  _initialized (run rs ops (constructor attrs props layout)) = true ->
  ownProps (run rs ops (constructor attrs props layout)) = props /\
  unshadowed (run rs ops (constructor attrs props layout)) = true /\
  innerHTML (render rs (run rs ops (constructor attrs props layout))) =
  innerHTML (run rs ops (constructor attrs props layout)).
Proof.
  intros Hu Hops Hinit.
  split; [now apply run_ownProps|]. split; [now apply run_unshadowed|].
  destruct (run_reconciled rs ops _ (constructor_reconciled rs attrs props layout))
    as (Hs & _).
  destruct (Hs Hinit) as [id (Hi & Hne & Hm)].
  rewrite render_innerHTML, Hm.
  rewrite (getInstanceId_stable rs _ id Hi Hne). reflexivity.
Qed.

(** X3: over a history of supported operations on an unshadowed
    instance, while the initialised instance is gated the element it has
    rendered carries no ripple listener. *)
Theorem gated_element_has_no_ripple_listener (rs : nat -> string)
    (attrs : gmap string string) (props : gmap string Value)
    (layout : nat -> Rect) (ops : list Op) (b : nat) :
  unshadowed (constructor attrs props layout) = true ->
  forallb supported ops = true ->
  _initialized (run rs ops (constructor attrs props layout)) = true ->
  gated (run rs ops (constructor attrs props layout)) = true ->
  btn (run rs ops (constructor attrs props layout)) = Some b ->
  click_listeners_on b (run rs ops (constructor attrs props layout)) = [].
Proof.
  intros Hu Hops Hinit Hg Hb.
  destruct (run_reconciled rs ops _ (constructor_reconciled rs attrs props layout))
    as (_ & _ & _ & H & _).
  now apply H.
Qed.

Lemma run_app (rs : nat -> string) (ops ops' : list Op) (w : World) :
  run rs (ops ++ ops') w = run rs ops' (run rs ops w).
Proof. unfold run. apply fold_left_app. Qed.

Lemma instanceId_kept (rs : nat -> string) (id : string) (ops : list Op)
    (w : World) :
  id <> "" -> _instanceId w = Some id -> _instanceId (run rs ops w) = Some id.
Proof.
  intros Hne. apply (run_keeps rs (fun w => _instanceId w = Some id)).
  - intros w' m Hi. rewrite render_instanceId.
    now rewrite (getInstanceId_stable rs (set_attributes m w') id Hi Hne).
  - intros w' Hi. change (_instanceId (render rs w') = Some id).
    rewrite render_instanceId.
    now rewrite (getInstanceId_stable rs w' id Hi Hne).
  - intros w' n v Hi _. exact Hi.
  - intros w' n Hi _. exact Hi.
  - intros w' m Hi. exact Hi.
  - intros w' Hi. unfold removeEventListeners. simpl.
    now destruct (_rippleCleanup w') as [[? ?]|].
  - intros w' b Hi. unfold createRipple.
    now destruct (get_disabled w' || get_loading w' || _).
  - intros w' ev Hi. exact Hi.
  - intros w' r Hi. unfold ripple_timeout.
    now destruct (existsb _ (ripples w')).
Qed.

(** X2: over a history of supported operations on an unshadowed
    instance, [Math.random] is called at most once; the identifier, once
    it exists, is the first draw prefixed with ["lume-btn-"], it exists
    from the first render on, and no later supported operation changes
    it. *)
Theorem instance_id_is_stable (rs : nat -> string)
    (attrs : gmap string string) (props : gmap string Value)
    (layout : nat -> Rect) (ops : list Op) :
  unshadowed (constructor attrs props layout) = true ->
  forallb supported ops = true ->
  randomCalls (run rs ops (constructor attrs props layout)) <= 1 /\
  (_instanceId (run rs ops (constructor attrs props layout)) = None \/
   _instanceId (run rs ops (constructor attrs props layout)) =
     Some ("lume-btn-" ++ rs 0)) /\
  (_initialized (run rs ops (constructor attrs props layout)) = true ->
   _instanceId (run rs ops (constructor attrs props layout)) =
     Some ("lume-btn-" ++ rs 0)) /\
  (forall id ops',
     forallb supported ops' = true ->
     _instanceId (run rs ops (constructor attrs props layout)) = Some id ->
     _instanceId (run rs (ops ++ ops') (constructor attrs props layout)) =
       Some id).
Proof.
  intros Hu Hops.
  destruct (run_reconciled rs ops _ (constructor_reconciled rs attrs props layout))
    as (Hs & Hid & _).
  split; [|split; [|split]].
  - destruct Hid as [[_ ->]|[_ ->]]; lia.
  - destruct Hid as [[-> _]|[-> _]]; auto.
  - intros Hinit. destruct (Hs Hinit) as [id (Hi & Hne & _)].
    destruct Hid as [[Hn _]|[Hsome _]]; [congruence | assumption].
  - intros id ops' _ Hi. rewrite run_app.
    apply instanceId_kept; [|assumption].
    destruct Hid as [[Hn _]|[Hsome _]]; [congruence|].
    rewrite Hsome in Hi. injection Hi as <-. discriminate.
Qed.

(** ** Writes that change nothing *)

Lemma setAttribute_same_value (rs : nat -> string) (name value : string)
    (w : World) :
  attributes w !! name = Some value -> setAttribute rs name value w = w.
Proof.
  intros H. unfold setAttribute, attributeChangedCallback.
  rewrite (insert_id _ _ _ H), set_attributes_same.
  rewrite bool_decide_eq_true_2 by assumption.
  rewrite andb_false_r. now destruct (includes observedAttributes name).
Qed.

Lemma removeAttribute_absent (rs : nat -> string) (name : string) (w : World) :
  attributes w !! name = None -> removeAttribute rs name w = w.
Proof. intros H. unfold removeAttribute. now rewrite H. Qed.

(** X4: an attribute set to the value it already has changes nothing, so
    nothing is rendered again; hence every property setter is idempotent:
    writing the same value a second time leaves the store exactly as the
    first write left it. *)
Theorem repeated_write_changes_nothing (rs : nat -> string) (w : World)
    (v : Value) :
  (forall name value,
     attributes w !! name = Some value -> setAttribute rs name value w = w) /\
  set_variant rs v (set_variant rs v w) = set_variant rs v w /\
  set_size rs v (set_size rs v w) = set_size rs v w /\
  set_disabled rs v (set_disabled rs v w) = set_disabled rs v w /\
  set_loading rs v (set_loading rs v w) = set_loading rs v w /\
  set_href rs v (set_href rs v w) = set_href rs v w.
Proof.
  assert (Hset : forall name value x,
    setAttribute rs name value (setAttribute rs name value x) =
    setAttribute rs name value x).
  { intros name value x. apply setAttribute_same_value.
    rewrite setAttribute_attributes. apply lookup_insert_eq. }
  assert (Hrem : forall name x,
    removeAttribute rs name (removeAttribute rs name x) =
    removeAttribute rs name x).
  { intros name x. apply removeAttribute_absent.
    rewrite removeAttribute_attributes. apply lookup_delete_eq. }
  split; [intros name value; apply setAttribute_same_value|].
  unfold set_variant, set_size, set_disabled, set_loading, set_href.
  destruct (truthy v); auto 10.
Qed.

(** ** Before the first connection *)

Lemma unrendered_set_attributes (m : gmap string string) (w : World) :
  unrendered w -> unrendered (set_attributes m w).
Proof. intros H. exact H. Qed.

Lemma setAttribute_unrendered (rs : nat -> string) (name value : string)
    (w : World) :
  unrendered w -> unrendered (setAttribute rs name value w).
Proof.
  intros H. rewrite setAttribute_uninitialized by apply H. exact H.
Qed.

Lemma removeAttribute_unrendered (rs : nat -> string) (name : string)
    (w : World) :
  unrendered w -> unrendered (removeAttribute rs name w).
Proof.
  intros H. unfold removeAttribute, attributeChangedCallback.
  destruct (attributes w !! name); [|exact H].
  cbn [_initialized set_attributes].
  destruct H as (Hi & H). rewrite Hi. cbn [andb].
  destruct (includes observedAttributes name); now split.
Qed.

Lemma assign_unrendered (rs : nat -> string) (prop : string) (v : Value)
    (w : World) :
  unrendered w -> unrendered (state_of (assign rs prop v w)).
Proof.
  intros H. unfold assign.
  destruct (ownProps w !! prop); [exact H|].
  destruct (prototype_accessor prop); unfold state_of; cbn [snd];
    [|exact H|exact H].
  unfold call_setter, set_variant, set_size, set_disabled, set_loading,
    set_href.
  repeat match goal with
         | |- context [if ?c then _ else _] => destruct c
         end;
    auto using setAttribute_unrendered, removeAttribute_unrendered.
Qed.

(** X5: until an unshadowed instance is connected for the first time
    (and unless [render] is called directly), attribute writes under plain
    names and assignments to the properties the class defines never
    render: the shadow root stays empty, no element exists, no listener is
    attached and no identifier is drawn. *)
Theorem no_render_before_connection (rs : nat -> string)
    (attrs : gmap string string) (props : gmap string Value)
    (layout : nat -> Rect) (ops : list Op) :
  unshadowed (constructor attrs props layout) = true ->
  forallb supported ops = true ->
  forallb before_connection ops = true ->
  unrendered (run rs ops (constructor attrs props layout)).
Proof.
  intros _ _ Hops.
  assert (H0 : unrendered (constructor attrs props layout))
    by (repeat split).
  revert H0. generalize (constructor attrs props layout). unfold run.
  induction ops as [|op ops IH]; intros w Hw; [exact Hw|].
  simpl in Hops. apply andb_prop in Hops. destruct Hops as [Hop Hops].
  simpl. apply IH; [exact Hops|].
  destruct op; simpl in *; try discriminate.
  - unfold disconnectedCallback, removeEventListeners. simpl.
    destruct Hw as (? & ? & ? & ? & Hc & ?). rewrite Hc.
    repeat split; tauto.
  - now apply setAttribute_unrendered.
  - now apply removeAttribute_unrendered.
  - now apply assign_unrendered.
  - destruct Hw as (? & ? & Hb & ?). rewrite Hb. repeat split; tauto.
  - unfold ripple_timeout. destruct (existsb _ (ripples w)); exact Hw.
Qed.

(** ** Connection and disconnection *)


Lemma setupRippleEffect_hostKeydown (w : World) :
  hostKeydown (setupRippleEffect w) = hostKeydown w.
Proof. unfold setupRippleEffect. case_matches; simpl; congruence. Qed.

Lemma render_hostKeydown (rs : nat -> string) (w : World) :
  hostKeydown (render rs w) = hostKeydown w.
Proof.
  rewrite render_unfold. cbv zeta. rewrite setupRippleEffect_hostKeydown.
  simpl. unfold getInstanceId. now destruct (truthy_attr (_instanceId w)).
Qed.

Lemma createRipple_host (b : nat) (w : World) :
  hostClick (createRipple b w) = hostClick w /\
  hostKeydown (createRipple b w) = hostKeydown w /\
  trace (createRipple b w) = trace w.
Proof.
  unfold createRipple.
  now destruct (get_disabled w || get_loading w || _).
Qed.

Lemma run_click_listeners_host (b : nat) (w : World) :
  hostClick (run_click_listeners b w) = hostClick w /\
  hostKeydown (run_click_listeners b w) = hostKeydown w /\
  trace (run_click_listeners b w) = trace w.
Proof.
  unfold run_click_listeners.
  generalize (click_listeners_on b w). intros l. revert w.
  induction l as [|h l IH]; intros w; [now repeat split|].
  simpl. destruct (IH (createRipple b w)) as (-> & -> & ->).
  apply createRipple_host.
Qed.

(** Only [connectedCallback] attaches the click and keydown listeners of
    the host element. *)
Lemma step_without_connection (rs : nat -> string) (op : Op) (w : World) :
  without_connection op = true ->
  hostClick w = false /\ hostKeydown w = false ->
  hostClick (step rs op w) = false /\ hostKeydown (step rs op w) = false.
Proof.
  intros Hop HP.
  set (P := fun x : World => hostClick x = false /\ hostKeydown x = false).
  assert (Hre : forall x m, P x -> P (render rs (set_attributes m x))).
  { intros x m [H1 H2]. split.
    - now destruct (render_frame rs (set_attributes m x)) as (_ & -> & _).
    - now rewrite render_hostKeydown. }
  assert (Hin : forall x name value, P x ->
            _initialized x = false \/ includes observedAttributes name = false ->
            P (set_attributes (<[name := value]> (attributes x)) x))
    by (intros x name value H _; exact H).
  assert (Hde : forall x name, P x ->
            _initialized x = false \/ includes observedAttributes name = false ->
            P (set_attributes (delete name (attributes x)) x))
    by (intros x name H _; exact H).
  assert (Hpr : forall x m, P x -> P (set_ownProps m x))
    by (intros x m H; exact H).
  change (P (step rs op w)). change (P w) in HP.
  destruct op; cbn [step]; try discriminate.
  - unfold disconnectedCallback, removeEventListeners.
    cbn [_rippleCleanup set_hostKeydown set_hostClick].
    now destruct (_rippleCleanup w) as [[b0 h0]|].
  - now apply (setAttribute_keeps rs P).
  - now apply (removeAttribute_keeps rs P).
  - now apply (assign_keeps rs P).
  - rewrite <- (set_attributes_same w) at 1. now apply Hre.
  - destruct (btn w) as [b|]; [|assumption].
    destruct (run_click_listeners_host b (set_event ev w)) as (H1 & H2 & _).
    unfold P. rewrite H1, H2. exact HP.
  - unfold ripple_timeout. now destruct (existsb _ (ripples w)).
Qed.

Lemma run_without_connection (rs : nat -> string) (ops : list Op) (w : World) :
  forallb without_connection ops = true ->
  hostClick w = false /\ hostKeydown w = false ->
  hostClick (run rs ops w) = false /\ hostKeydown (run rs ops w) = false.
Proof.
  unfold run. revert w.
  induction ops as [|op ops IH]; intros w Hops HP; [exact HP|].
  cbn [forallb] in Hops. apply andb_prop in Hops. destruct Hops as [Hop Hops].
  cbn [fold_left]. apply IH; [exact Hops|].
  now apply step_without_connection.
Qed.

(** X7: right after [disconnectedCallback], at any point of a history of
    supported operations on an unshadowed instance, no listener is left:
    the click and keydown listeners are detached, no ripple listener
    exists and the cleanup closure is dropped, so a click or a key
    delivered at that point changes nothing.  The instance stays
    initialised, so a later attribute change renders again and may attach
    a ripple listener to the new element; but until the instance is
    connected again the click and keydown listeners of the host stay
    detached: a key changes nothing, and a click runs at most the ripple
    listener, never [handleClick]. *)
Theorem disconnection_detaches_everything (rs : nat -> string) nf
    (attrs : gmap string string) (props : gmap string Value)
    (layout : nat -> Rect) (ops : list Op) (ev : Event) :
  unshadowed (constructor attrs props layout) = true ->
  forallb supported ops = true ->
  let w := disconnectedCallback (run rs ops (constructor attrs props layout)) in
  hostClick w = false /\ hostKeydown w = false /\
  clickListeners w = [] /\ _rippleCleanup w = None /\
  pointer_activation nf (set_event ev w) = (Normal tt, set_event ev w) /\
  keyboard_activation nf (set_event ev w) = (Normal tt, set_event ev w) /\
  (forall later,
     forallb supported later = true ->
     forallb without_connection later = true ->
     let w' := run rs later w in
     hostClick w' = false /\ hostKeydown w' = false /\
     keyboard_activation nf (set_event ev w') = (Normal tt, set_event ev w') /\
     fst (pointer_activation nf (set_event ev w')) = Normal tt /\
     trace (state_of (pointer_activation nf (set_event ev w'))) = trace w').
Proof.
  intros _ _ w.
  assert (Hc : consistent (run rs ops (constructor attrs props layout)))
    by apply run_consistent, constructor_consistent.
  destruct Hc as (Ht & _). unfold listeners_tracked in Ht.
  assert (H : hostClick w = false /\ hostKeydown w = false /\
              clickListeners w = [] /\ _rippleCleanup w = None).
  { subst w. unfold disconnectedCallback, removeEventListeners.
    cbn [_rippleCleanup set_hostKeydown set_hostClick].
    destruct (_rippleCleanup (run rs ops (constructor attrs props layout)))
      as [[b0 h0]|] eqn:Hcl.
    - unfold removeClickListener.
      cbn [hostClick hostKeydown clickListeners _rippleCleanup
           set_rippleCleanup set_clickListeners set_hostKeydown set_hostClick].
      rewrite Ht.
      rewrite filter_cons_False by (intros Hne; now apply Hne).
      repeat split.
    - cbn [hostClick hostKeydown clickListeners _rippleCleanup
           set_hostKeydown set_hostClick].
      rewrite Ht, Hcl. repeat split. }
  destruct H as (Hk & Hd & Hl & Hcl).
  split; [assumption|]. split; [assumption|]. split; [assumption|].
  split; [assumption|]. split; [|split].
  - unfold pointer_activation.
    change (btn (set_event ev w)) with (btn w).
    destruct (btn w) as [b|]; [|reflexivity].
    unfold run_click_listeners, click_listeners_on.
    change (clickListeners (set_event ev w)) with (clickListeners w).
    rewrite Hl. simpl.
    change (hostClick (set_event ev w)) with (hostClick w).
    now rewrite Hk.
  - unfold keyboard_activation.
    change (hostKeydown (set_event ev w)) with (hostKeydown w).
    now rewrite Hd.
  - intros later _ Hlater w'.
    destruct (run_without_connection rs later w Hlater (conj Hk Hd))
      as [Hk' Hd'].
    fold w' in Hk', Hd'.
    split; [assumption|]. split; [assumption|]. split.
    + unfold keyboard_activation.
      change (hostKeydown (set_event ev w')) with (hostKeydown w').
      now rewrite Hd'.
    + unfold pointer_activation.
      change (btn (set_event ev w')) with (btn w').
      destruct (btn w') as [b|]; [|now split].
      destruct (run_click_listeners_host b (set_event ev w'))
        as (H1 & _ & H3).
      rewrite H1.
      change (hostClick (set_event ev w')) with (hostClick w').
      rewrite Hk'. cbn [andb fst]. unfold state_of. cbn [snd].
      split; [reflexivity | exact H3].
Qed.

(** ** More on activation *)


(** X9: the custom action can veto navigation.  If the event's default is
    prevented once the custom action has run, or no href is left, the
    handler opens nothing and assigns no location: the only effect after
    the custom action is the [lume-click] dispatch (plus the
    [console.error] report if the action threw). *)
Theorem prevented_default_skips_navigation nf (w : World) :
  gated w = false ->
  defaultPrevented (event (state_of (execute_onclick_handler nf w))) = true \/
  truthy_attr (get_href (state_of (execute_onclick_handler nf w))) = false ->
  trace (state_of (handleClick nf w)) =
  (trace (state_of (execute_onclick_handler nf w)) ++
   [EDispatchEvent "lume-click" true true
      (mkDetail (get_href (state_of (execute_onclick_handler nf w)))
                (get_variant (state_of (execute_onclick_handler nf w)))
                (get_size (state_of (execute_onclick_handler nf w))))])%list.
Proof.
  intros Hg Hveto.
  rewrite handleClick_ungated by assumption.
  unfold state_of at 1. cbn [snd].
  rewrite navigate_skipped by tauto. reflexivity.
Qed.



(** ** Flags, setters and public methods *)

Lemma hasAttribute_setAttribute_other (rs : nat -> string)
    (name other value : string) (w : World) :
  other <> name ->
  getAttribute other (setAttribute rs name value w) = getAttribute other w.
Proof.
  intros Hne. unfold getAttribute. rewrite setAttribute_attributes.
  now apply lookup_insert_ne.
Qed.

Lemma hasAttribute_removeAttribute_other (rs : nat -> string)
    (name other : string) (w : World) :
  other <> name ->
  getAttribute other (removeAttribute rs name w) = getAttribute other w.
Proof.
  intros Hne. unfold getAttribute. rewrite removeAttribute_attributes.
  now apply lookup_delete_ne.
Qed.

Lemma set_disabled_other (rs : nat -> string) (v : Value) (other : string)
    (w : World) :
  other <> "disabled" ->
  getAttribute other (set_disabled rs v w) = getAttribute other w.
Proof.
  intros Hne. unfold set_disabled. destruct (truthy v).
  - now apply hasAttribute_setAttribute_other.
  - now apply hasAttribute_removeAttribute_other.
Qed.

Lemma set_loading_other (rs : nat -> string) (v : Value) (other : string)
    (w : World) :
  other <> "loading" ->
  getAttribute other (set_loading rs v w) = getAttribute other w.
Proof.
  intros Hne. unfold set_loading. destruct (truthy v).
  - now apply hasAttribute_setAttribute_other.
  - now apply hasAttribute_removeAttribute_other.
Qed.

Lemma get_disabled_set_disabled (rs : nat -> string) (v : Value) (w : World) :
  get_disabled (set_disabled rs v w) = truthy v.
Proof.
  unfold get_disabled, set_disabled, hasAttribute. destruct (truthy v).
  - now rewrite setAttribute_attributes, lookup_insert_eq.
  - now rewrite removeAttribute_attributes, lookup_delete_eq.
Qed.

Lemma get_loading_set_loading (rs : nat -> string) (v : Value) (w : World) :
  get_loading (set_loading rs v w) = truthy v.
Proof.
  unfold get_loading, set_loading, hasAttribute. destruct (truthy v).
  - now rewrite setAttribute_attributes, lookup_insert_eq.
  - now rewrite removeAttribute_attributes, lookup_delete_eq.
Qed.

Lemma get_loading_set_disabled (rs : nat -> string) (v : Value) (w : World) :
  get_loading (set_disabled rs v w) = get_loading w.
Proof.
  unfold get_loading, hasAttribute.
  change (attributes (set_disabled rs v w) !! "loading")
    with (getAttribute "loading" (set_disabled rs v w)).
  now rewrite set_disabled_other.
Qed.

Lemma get_disabled_set_loading (rs : nat -> string) (v : Value) (w : World) :
  get_disabled (set_loading rs v w) = get_disabled w.
Proof.
  unfold get_disabled, hasAttribute.
  change (attributes (set_loading rs v w) !! "disabled")
    with (getAttribute "disabled" (set_loading rs v w)).
  now rewrite set_loading_other.
Qed.

Lemma set_disabled_ownProps (rs : nat -> string) (v : Value) (w : World) :
  ownProps (set_disabled rs v w) = ownProps w.
Proof. exact (call_setter_ownProps rs "disabled" v w). Qed.

Lemma set_loading_ownProps (rs : nat -> string) (v : Value) (w : World) :
  ownProps (set_loading rs v w) = ownProps w.
Proof. exact (call_setter_ownProps rs "loading" v w). Qed.

Lemma validate_unshadowed_flags (w : World) :
  ownProps w !! "disabled" = None -> ownProps w !! "loading" = None ->
  validate w =
  if get_disabled w && get_loading w
  then ["Button cannot be both disabled and loading"] else [].
Proof.
  intros Hd Hl. unfold validate, this_disabled, this_loading.
  now rewrite Hd, Hl.
Qed.

(** X12: on an unshadowed instance [disabled] and [loading] are
    independent flags: writing one through its
    setter never changes the other, the gate after a write is the written
    truthiness or the other flag, and [validate] warns exactly after both
    have been switched on, in either order, and stops warning as soon as
    either is switched off. *)
Theorem flags_are_independent (rs : nat -> string) (w : World) (v : Value) :
  unshadowed w = true ->
  get_loading (set_disabled rs v w) = get_loading w /\
  get_disabled (set_loading rs v w) = get_disabled w /\
  gated (set_disabled rs v w) = truthy v || get_loading w /\
  gated (set_loading rs v w) = get_disabled w || truthy v /\
  validate (set_disabled rs (VBool true) (set_loading rs (VBool true) w)) =
    ["Button cannot be both disabled and loading"] /\
  validate (set_loading rs (VBool true) (set_disabled rs (VBool true) w)) =
    ["Button cannot be both disabled and loading"] /\
  (truthy v = false ->
   validate (set_disabled rs v w) = [] /\ validate (set_loading rs v w) = []).
Proof.
  intros Hu.
  assert (Hod : ownProps w !! "disabled" = None)
    by (apply unshadowed_lookup; [assumption | apply includes_In; reflexivity]).
  assert (Hol : ownProps w !! "loading" = None)
    by (apply unshadowed_lookup; [assumption | apply includes_In; reflexivity]).
  split; [apply get_loading_set_disabled|].
  split; [apply get_disabled_set_loading|].
  split.
  { unfold gated.
    now rewrite get_disabled_set_disabled, get_loading_set_disabled. }
  split.
  { unfold gated.
    now rewrite get_loading_set_loading, get_disabled_set_loading. }
  split.
  { rewrite validate_unshadowed_flags
      by now rewrite set_disabled_ownProps, set_loading_ownProps.
    now rewrite get_disabled_set_disabled, get_loading_set_disabled,
      get_loading_set_loading. }
  split.
  { rewrite validate_unshadowed_flags
      by now rewrite set_loading_ownProps, set_disabled_ownProps.
    now rewrite get_loading_set_loading, get_disabled_set_loading,
      get_disabled_set_disabled. }
  intros Hv. split.
  - rewrite validate_unshadowed_flags by now rewrite set_disabled_ownProps.
    now rewrite get_disabled_set_disabled, Hv.
  - rewrite validate_unshadowed_flags by now rewrite set_loading_ownProps.
    rewrite get_loading_set_loading, Hv. now rewrite andb_false_r.
Qed.

(** X13: [setDisabled] and [setLoading] never throw.  On an instance with
    no own property of that name they are the property setters; when an
    early own property still shadows the accessor (the instance was never
    connected), the call only overwrites that property and the attribute
    bag, hence the gate, stays as it was. *)
Theorem setDisabled_and_setLoading (rs : nat -> string) (w : World) (v : Value) :
  fst (setDisabled rs v w) = Normal tt /\
  fst (setLoading rs v w) = Normal tt /\
  (ownProps w !! "disabled" = None ->
   state_of (setDisabled rs v w) = set_disabled rs v w /\
   get_disabled (state_of (setDisabled rs v w)) = truthy v) /\
  (ownProps w !! "loading" = None ->
   state_of (setLoading rs v w) = set_loading rs v w /\
   get_loading (state_of (setLoading rs v w)) = truthy v) /\
  (ownProps w !! "disabled" <> None ->
   attributes (state_of (setDisabled rs v w)) = attributes w /\
   ownProps (state_of (setDisabled rs v w)) !! "disabled" = Some v) /\
  (ownProps w !! "loading" <> None ->
   attributes (state_of (setLoading rs v w)) = attributes w /\
   ownProps (state_of (setLoading rs v w)) !! "loading" = Some v).
Proof.
  unfold setDisabled, setLoading, assign.
  change (prototype_accessor "disabled") with GetterAndSetter.
  change (prototype_accessor "loading") with GetterAndSetter.
  change (call_setter rs "disabled" v w) with (set_disabled rs v w).
  change (call_setter rs "loading" v w) with (set_loading rs v w).
  repeat split.
  - now destruct (ownProps w !! "disabled").
  - now destruct (ownProps w !! "loading").
  - now rewrite H.
  - rewrite H. apply get_disabled_set_disabled.
  - now rewrite H.
  - rewrite H. apply get_loading_set_loading.
  - destruct (ownProps w !! "disabled"); [reflexivity | contradiction].
  - destruct (ownProps w !! "disabled"); [|contradiction].
    apply lookup_insert_eq.
  - destruct (ownProps w !! "loading"); [reflexivity | contradiction].
  - destruct (ownProps w !! "loading"); [|contradiction].
    apply lookup_insert_eq.
Qed.

(** X14: on an unshadowed instance and for a plain attribute name,
    [updateStyle] clears the attribute for [null] and [undefined] and
    stores the string form of any other value, the empty string included;
    no attribute under another plain name changes. *)
Theorem updateStyle_write_then_read (rs : nat -> string) (w : World)
    (property : string) (v : Value) :
  unshadowed w = true -> plain_name property = true ->
  getAttribute property (updateStyle rs property v w) =
    match v with
    | VNull | VUndefined => None
    | _ => Some (ToString v)
    end /\
  getAttribute property (updateStyle rs property (VStr "") w) = Some "" /\
  (forall other, plain_name other = true -> other <> property ->
     getAttribute other (updateStyle rs property v w) = getAttribute other w).
Proof.
  intros _ _. split; [|split].
  - destruct v; simpl;
      auto using getAttribute_setAttribute, getAttribute_removeAttribute.
  - apply getAttribute_setAttribute.
  - intros other _ Hne. destruct v; simpl;
      auto using hasAttribute_setAttribute_other,
                 hasAttribute_removeAttribute_other.
Qed.

(** X15: a member of the valid set written through the [variant] or
    [size] setter is read back unchanged. *)
Theorem valid_enum_write_then_read (rs : nat -> string) (w : World)
    (s : string) :
  (In s validVariants -> get_variant (set_variant rs (VStr s) w) = s) /\
  (In s validSizes -> get_size (set_size rs (VStr s) w) = s).
Proof.
  split; intros Hin.
  - unfold get_variant, set_variant. rewrite getAttribute_setAttribute.
    apply resolve_valid; [assumption|].
    intros ->. simpl in Hin. intuition discriminate.
  - unfold get_size, set_size. rewrite getAttribute_setAttribute.
    apply resolve_valid; [assumption|].
    intros ->. simpl in Hin. intuition discriminate.
Qed.

(** ** Registration *)

(** X16: the registration at the end of the module never throws for a
    class that is not registered yet: it defines [lume-button] when the
    name is free and does nothing when the name is taken, so registering a
    second time keeps the first definition. *)
Theorem registration_is_guarded (cls : string) (registry : gmap string string) :
  (registry !! "lume-button" <> None -> register cls registry = inr registry) /\
  ((forall name c, registry !! name = Some c -> c <> cls) ->
   exists registry',
     register cls registry = inr registry' /\
     registry' !! "lume-button" <> None /\
     (registry !! "lume-button" = None ->
      registry' = <["lume-button" := cls]> registry) /\
     (forall cls', register cls' registry' = inr registry')).
Proof.
  assert (Htaken : forall c r, r !! "lume-button" <> None ->
                               register c r = inr r).
  { intros c r H. unfold register, customElements_get.
    destruct (r !! "lume-button"); [reflexivity | contradiction]. }
  split; [apply Htaken|].
  intros Hfresh.
  destruct (registry !! "lume-button") as [c|] eqn:Hname.
  - exists registry. split; [|split; [|split]].
    + apply Htaken. rewrite Hname. discriminate.
    + rewrite Hname. discriminate.
    + discriminate.
    + intros cls'. apply Htaken. rewrite Hname. discriminate.
  - exists (<["lume-button" := cls]> registry).
    assert (Hnew : <["lume-button" := cls]> registry !! "lume-button" <> None)
      by (rewrite lookup_insert_eq; discriminate).
    split; [|split; [|split]]; auto.
    unfold register, customElements_get, customElements_define.
    rewrite Hname.
    destruct (existsb _ (map_to_list registry)) eqn:E; [|reflexivity].
    apply existsb_exists in E. destruct E as [[name c] [Hin Heq]].
    apply String.eqb_eq in Heq. simpl in Heq.
    apply list_elem_of_In, elem_of_map_to_list in Hin.
    destruct (Hfresh name c Hin Heq).
Qed.

(** ** Programmatic click *)

Lemma click_gated nf (w : World) : gated w = true -> click nf w = (Normal tt, w).
Proof.
  unfold gated, click. intros Hg. now rewrite <- negb_orb, Hg.
Qed.

(** X17: [click()] does nothing on a gated instance; in particular it does
    nothing right after [disabled] or [loading] has been switched on, and
    it does nothing before the first render. *)
Theorem click_is_ignored_when_gated (rs : nat -> string) nf (w : World)
    (v : Value) :
  (gated w = true -> click nf w = (Normal tt, w)) /\
  (btn w = None -> click nf w = (Normal tt, w)) /\
  (truthy v = true ->
   click nf (set_disabled rs v w) = (Normal tt, set_disabled rs v w) /\
   click nf (set_loading rs v w) = (Normal tt, set_loading rs v w)).
Proof.
  split; [apply click_gated|]. split.
  - intros Hb. unfold click. rewrite Hb.
    now destruct (negb (get_disabled w) && negb (get_loading w)).
  - intros Hv. split; apply click_gated; unfold gated.
    + now rewrite get_disabled_set_disabled, Hv.
    + rewrite get_loading_set_loading, Hv. apply orb_true_r.
Qed.



(** ** Early properties that have a setter *)

(** X19: for the five property names that have a setter, the upgrade
    step absorbs an early own property: it never throws, the own property
    is gone afterwards, and the value has gone through the setter, so it
    can be read back from the attribute bag. *)
Theorem early_property_with_setter_is_absorbed (rs : nat -> string)
    (w : World) (prop : string) (v : Value) :
  In prop ["variant"; "size"; "disabled"; "loading"; "href"] ->
  ownProps w !! prop = Some v ->
  fst (upgradeProperty rs prop w) = Normal tt /\
  ownProps (state_of (upgradeProperty rs prop w)) !! prop = None /\
  (prop = "variant" \/ prop = "size" ->
   getAttribute prop (state_of (upgradeProperty rs prop w)) =
     Some (ToString v)) /\
  (prop = "disabled" ->
   get_disabled (state_of (upgradeProperty rs prop w)) = truthy v) /\
  (prop = "loading" ->
   get_loading (state_of (upgradeProperty rs prop w)) = truthy v) /\
  (prop = "href" ->
   get_href (state_of (upgradeProperty rs prop w)) =
     if truthy v then Some (ToString v) else None).
Proof.
  intros Hin Hown.
  assert (Hacc : prototype_accessor prop = GetterAndSetter).
  { simpl in Hin. intuition (subst; reflexivity). }
  rewrite (upgradeProperty_setter rs prop v w Hown Hacc).
  unfold state_of. cbn [fst snd].
  split; [reflexivity|]. split.
  { rewrite call_setter_ownProps. simpl. apply lookup_delete_eq. }
  split; [|split; [|split]].
  - intros [->| ->]; apply getAttribute_setAttribute.
  - intros ->. apply get_disabled_set_disabled.
  - intros ->. apply get_loading_set_loading.
  - intros ->. change (call_setter rs "href" v) with (set_href rs v).
    unfold get_href, set_href. destruct (truthy v).
    + apply getAttribute_setAttribute.
    + apply getAttribute_removeAttribute.
Qed.



(** ** Inline styles and the rendered element *)

Lemma append_nil_r (s : string) : s ++ "" = s.
Proof.
  induction s as [|c s IH]; [reflexivity|].
  change (String c (s ++ "") = String c s). now rewrite IH.
Qed.

Lemma append_eq_nil (a b : string) : a ++ b = "" -> a = "".
Proof. destruct a; [reflexivity | discriminate]. Qed.

Lemma join_head (sep x : string) (l : list string) :
  exists rest, join sep (x :: l) = x ++ rest.
Proof.
  destruct l as [|y l].
  - exists "". simpl. now rewrite append_nil_r.
  - eexists. reflexivity.
Qed.

Lemma pushed_nil (v : option string) (pre post : string) :
  pushed v pre post = [] <-> truthy_attr v = false.
Proof.
  unfold pushed. destruct (truthy_attr v); split; congruence.
Qed.

Lemma pushed_head (v : option string) (pre post : string) (c : ascii)
    (pre' : string) :
  pre = String c pre' -> forall x, In x (pushed v pre post) -> x <> "".
Proof.
  intros -> x. unfold pushed. destruct (truthy_attr v); [|intros []].
  intros [<-|[]]. discriminate.
Qed.

Lemma join_nil_iff (sep : string) (l : list string) :
  (forall x, In x l -> x <> "") -> (join sep l = "" <-> l = []).
Proof.
  intros Hne. split; [|intros ->; reflexivity].
  destruct l as [|x l]; [reflexivity|]. intros Hj.
  destruct (join_head sep x l) as [rest Hr]. rewrite Hr in Hj.
  apply append_eq_nil in Hj. destruct (Hne x (or_introl eq_refl) Hj).
Qed.

(** X21: on an unshadowed instance [generateInlineStyles] returns the
    empty string exactly when none of the ten inline override attributes
    (color, bg-color, border, radius, padding, font-size, font-weight,
    width, height, shadow) has a non-empty value; the hover, active and
    glow colours never contribute to it. *)
Theorem inline_styles_empty_iff (w : World) :
  unshadowed w = true ->
  generateInlineStyles w = "" <->
  truthy_attr (get_color w) = false /\
  truthy_attr (get_bgColor w) = false /\
  truthy_attr (get_border w) = false /\
  truthy_attr (get_radius w) = false /\
  truthy_attr (get_padding w) = false /\
  truthy_attr (get_fontSize w) = false /\
  truthy_attr (get_fontWeight w) = false /\
  truthy_attr (get_width w) = false /\
  truthy_attr (get_height w) = false /\
  truthy_attr (get_shadow w) = false.
Proof.
  intros _. unfold generateInlineStyles. cbv zeta.
  rewrite join_nil_iff.
  - rewrite !app_nil, !pushed_nil. tauto.
  - intros x Hin.
    repeat (apply in_app_or in Hin; destruct Hin as [Hin|Hin]);
      eapply pushed_head; try exact Hin; reflexivity.
Qed.

Ltac find_segment :=
  repeat first
    [ solve [apply occurs_in_here; eexists; rewrite ?append_assoc; reflexivity]
    | apply occurs_in_skip ].

Lemma render_innerHTML_template (rs : nat -> string) (w : World) :
  innerHTML (render rs w) =
  template (fst (getInstanceId rs w)) (generateInlineStyles w) w.
Proof.
  rewrite render_innerHTML. apply template_ext.
  apply getInstanceId_attributes.
Qed.

(** X22: on an unshadowed instance the [href] attribute alone decides
    what is rendered.  With a
    non-empty href the element is an anchor carrying the href, the
    resolved target and the link role; otherwise it is a button of type
    ["button"] with the button role and an [aria-disabled] that mirrors
    the gate.  The slot for the projected content is the last child in
    both.  In both cases the class list names the instance
    identifier, the resolved variant and the resolved size, and the tab
    index is [-1] when gated and [0] when not. *)
Theorem rendered_element_kind (rs : nat -> string) (w : World) :
  unshadowed w = true ->
  (truthy_attr (get_href w) = true ->
   occurs_in ("<a
        class=" ++ dq ++ "btn " ++ fst (getInstanceId rs w) ++ " variant-" ++
              get_variant w ++ " size-" ++ get_size w ++ " ")
             (innerHTML (render rs w)) /\
   occurs_in ("href=" ++ dq ++ ToString (of_attr (get_href w)) ++ dq)
             (innerHTML (render rs w)) /\
   occurs_in ("target=" ++ dq ++ get_target w ++ dq)
             (innerHTML (render rs w)) /\
   occurs_in ("
        role=" ++ dq ++ "link" ++ dq) (innerHTML (render rs w)) /\
   occurs_in "
          <slot></slot>
        </span>
      </a>" (innerHTML (render rs w))) /\
  (truthy_attr (get_href w) = false ->
   occurs_in ("<button
        class=" ++ dq ++ "btn " ++ fst (getInstanceId rs w) ++ " variant-" ++
              get_variant w ++ " size-" ++ get_size w ++ " ")
             (innerHTML (render rs w)) /\
   occurs_in ("type=" ++ dq ++ "button" ++ dq) (innerHTML (render rs w)) /\
   occurs_in ("aria-disabled=" ++ dq ++
              (if gated w then "true" else "false") ++ dq)
             (innerHTML (render rs w)) /\
   occurs_in ("
        role=" ++ dq ++ "button" ++ dq) (innerHTML (render rs w)) /\
   occurs_in "
          <slot></slot>
        </span>
      </button>" (innerHTML (render rs w))) /\
  occurs_in ("
        tabindex=" ++ dq ++ (if gated w then "-1" else "0") ++ dq)
            (innerHTML (render rs w)).
Proof.
  intros _. rewrite render_innerHTML_template.
  generalize (fst (getInstanceId rs w)) (generateInlineStyles w).
  intros id styles. unfold gated.
  split; [|split].
  - intros Hh. unfold template. rewrite Hh. cbn [negb].
    repeat split; find_segment.
  - intros Hh. unfold template. rewrite Hh. cbn [negb].
    destruct (get_disabled w || get_loading w);
      repeat split; find_segment.
  - unfold template. find_segment.
Qed.

Lemma occurs_in_refl (s : string) : occurs_in s s.
Proof. exists "", "". simpl. now rewrite append_nil_r. Qed.

Lemma occurs_in_app_l (s a b : string) : occurs_in s a -> occurs_in s (a ++ b).
Proof.
  intros [pre [post ->]]. exists pre, (post ++ b).
  now rewrite !append_assoc.
Qed.

Lemma occurs_in_trans (s t u : string) :
  occurs_in s t -> occurs_in t u -> occurs_in s u.
Proof.
  intros [p1 [q1 ->]] [p2 [q2 ->]]. exists (p2 ++ p1), (q1 ++ q2).
  now rewrite !append_assoc.
Qed.

Lemma occurs_in_nonempty (s t : string) : occurs_in s t -> s <> "" -> t <> "".
Proof.
  intros [pre [post ->]] Hs Ht. apply Hs.
  destruct pre; [|discriminate].
  change (s ++ post = "") in Ht. now apply append_eq_nil in Ht.
Qed.

Lemma join_occurs (sep x : string) (l : list string) :
  In x l -> occurs_in x (join sep l).
Proof.
  induction l as [|y l IH]; intros Hin; [destruct Hin|].
  destruct l as [|z l].
  - destruct Hin as [->|[]]. apply occurs_in_refl.
  - change (join sep (y :: z :: l)) with (y ++ sep ++ join sep (z :: l)).
    destruct Hin as [->|Hin].
    + apply occurs_in_app_l, occurs_in_refl.
    + now apply occurs_in_skip, occurs_in_skip, IH.
Qed.

Lemma pushed_In (v : option string) (pre post s : string) :
  v = Some s -> s <> "" -> In (pre ++ s ++ post) (pushed v pre post).
Proof.
  intros -> Hs. unfold pushed.
  assert (truthy_attr (Some s) = true) as ->.
  { apply truthy_attr_Some. now exists s. }
  now left.
Qed.

Lemma declaration_in_inline_styles (w : World) (name pre post v : string) :
  In (name, pre, post) inline_declarations ->
  getAttribute name w = Some v -> v <> "" ->
  occurs_in (pre ++ v ++ post) (generateInlineStyles w) /\ pre <> "".
Proof.
  intros Hin Hget Hv.
  pose proof (pushed_In (getAttribute name w) pre post v Hget Hv) as Hp.
  unfold generateInlineStyles. cbv zeta. unfold_getters.
  simpl in Hin.
  repeat (destruct Hin as [Hin|Hin];
          [injection Hin as <- <- <-;
           split; [|discriminate];
           apply join_occurs; rewrite !in_app_iff; tauto|]).
  destruct Hin.
Qed.

Lemma style_attribute_in_template (id styles : string) (w : World) :
  styles <> "" ->
  occurs_in ("style=" ++ dq ++ styles ++ dq) (template id styles w).
Proof.
  intros Hne. unfold template.
  assert (negb (String.eqb styles "") = true) as ->.
  { apply negb_true_iff. now apply String.eqb_neq. }
  repeat first
    [ apply occurs_in_app_l; apply occurs_in_refl
    | apply occurs_in_skip ].
Qed.

(** X23: on an unshadowed instance every inline override attribute with
    a non-empty value shows up in the rendered markup: its declaration ([color] and [background]
    plain, the box and font fields with [!important]) is part of the
    string [generateInlineStyles] returns, and that string is the value of
    the rendered element's style attribute. *)
Theorem inline_overrides_reach_style_attribute (rs : nat -> string)
    (w : World) (name pre post v : string) :
  unshadowed w = true ->
  In (name, pre, post) inline_declarations ->
  getAttribute name w = Some v -> v <> "" ->
  occurs_in (pre ++ v ++ post) (generateInlineStyles w) /\
  occurs_in ("style=" ++ dq ++ generateInlineStyles w ++ dq)
            (innerHTML (render rs w)) /\
  occurs_in (pre ++ v ++ post) (innerHTML (render rs w)).
Proof.
  intros _ Hin Hget Hv.
  destruct (declaration_in_inline_styles w name pre post v Hin Hget Hv)
    as [Hocc Hpre].
  assert (Hne : generateInlineStyles w <> "").
  { apply (occurs_in_nonempty _ _ Hocc). intros E.
    apply append_eq_nil in E. contradiction. }
  assert (Hattr : occurs_in ("style=" ++ dq ++ generateInlineStyles w ++ dq)
                            (innerHTML (render rs w))).
  { rewrite render_innerHTML_template.
    now apply style_attribute_in_template. }
  split; [exact Hocc|]. split; [exact Hattr|].
  apply (occurs_in_trans _ _ _ Hocc).
  apply (occurs_in_trans _ ("style=" ++ dq ++ generateInlineStyles w ++ dq));
    [|exact Hattr].
  apply occurs_in_skip, occurs_in_skip, occurs_in_app_l, occurs_in_refl.
Qed.

Lemma setAttribute_initialized (rs : nat -> string) (name value : string)
    (w : World) :
  _initialized (setAttribute rs name value w) = _initialized w.
Proof.
  unfold setAttribute, attributeChangedCallback.
  destruct (includes observedAttributes name); [|reflexivity].
  destruct (_ && _); [|reflexivity].
  now destruct (render_frame rs (set_attributes (<[name:=value]> (attributes w)) w))
    as [-> _].
Qed.

(** X24: over a history of supported operations on an unshadowed
    instance, once the instance is initialised, [updateStyle] with a
    non-empty string for one of the inline override attributes is visible
    in the shadow markup as soon as the call returns: the markup then
    contains the declaration with the new value. *)
Theorem updateStyle_is_rendered_at_once (rs : nat -> string)
    (attrs : gmap string string) (props : gmap string Value)
    (layout : nat -> Rect) (ops : list Op) (name pre post v : string) :
  unshadowed (constructor attrs props layout) = true ->
  forallb supported ops = true ->
  _initialized (run rs ops (constructor attrs props layout)) = true ->
  In (name, pre, post) inline_declarations -> v <> "" ->
  occurs_in (pre ++ v ++ post)
    (innerHTML (updateStyle rs name (VStr v)
                  (run rs ops (constructor attrs props layout)))).
Proof.
  intros _ _ Hinit Hin Hv.
  set (w := run rs ops (constructor attrs props layout)) in *.
  change (updateStyle rs name (VStr v) w) with (setAttribute rs name v w).
  assert (HR : reconciled rs (setAttribute rs name v w)).
  { apply setAttribute_keeps.
    - intros; now apply reconciled_rerender.
    - intros; now apply reconciled_insert.
    - subst w. apply run_reconciled, constructor_reconciled. }
  destruct HR as (Hs & _).
  destruct Hs as [id (_ & _ & Hm)].
  { now rewrite setAttribute_initialized. }
  rewrite Hm.
  destruct (declaration_in_inline_styles (setAttribute rs name v w)
              name pre post v Hin (getAttribute_setAttribute rs name v w) Hv)
    as [Hocc Hpre].
  assert (Hne : generateInlineStyles (setAttribute rs name v w) <> "").
  { apply (occurs_in_nonempty _ _ Hocc). intros E.
    apply append_eq_nil in E. contradiction. }
  apply (occurs_in_trans _ _ _ Hocc).
  apply (occurs_in_trans _
           ("style=" ++ dq ++
            generateInlineStyles (setAttribute rs name v w) ++ dq)).
  - apply occurs_in_skip, occurs_in_skip, occurs_in_app_l, occurs_in_refl.
  - now apply style_attribute_in_template.
Qed.

(** ** Re-render replaces the element *)


(** ** A click on a gated instance *)

(** X26: a click the host delivers to the rendered element of a bound,
    gated instance adds no ripple and schedules nothing; the click
    handler only calls [preventDefault] and [stopPropagation] on it. *)
Theorem gated_pointer_activation (rs : nat -> string) nf
    (attrs : gmap string string) (props : gmap string Value)
    (layout : nat -> Rect) (ops : list Op) (ev : Event) :
  let w := run rs ops (constructor attrs props layout) in
  hostClick w = true -> gated w = true -> propagationStopped ev = false ->
  fst (pointer_activation nf (set_event ev w)) = Normal tt /\
  trace (state_of (pointer_activation nf (set_event ev w))) =
    (trace w ++ [EPreventDefault; EStopPropagation])%list /\
  ripples (state_of (pointer_activation nf (set_event ev w))) = ripples w /\
  timers (state_of (pointer_activation nf (set_event ev w))) = timers w /\
  attributes (state_of (pointer_activation nf (set_event ev w))) = attributes w.
Proof.
  intros w Hbound Hg Hev.
  assert (Hc : consistent w) by apply run_consistent, constructor_consistent.
  destruct Hc as (_ & Hr & Hb & _).
  destruct (Hr (Hb Hbound)) as [b [Hbtn _]].
  unfold pointer_activation.
  change (btn (set_event ev w)) with (btn w). rewrite Hbtn.
  rewrite run_click_listeners_noop by (left; exact Hg).
  change (hostClick (set_event ev w)) with (hostClick w).
  change (event (set_event ev w)) with ev.
  rewrite Hbound, Hev. cbn [negb andb].
  unfold handleClick.
  change (get_disabled (set_event ev w) || get_loading (set_event ev w))
    with (gated w).
  rewrite Hg. unfold state_of, stopPropagation, preventDefault, log. simpl.
  repeat split. now rewrite <- app_assoc.
Qed.

(** ** Derived style rules *)

Lemma segment_in_template_hover (id styles : string) (w : World) :
  occurs_in (customHoverActiveStyles id w) (template id styles w).
Proof.
  unfold template.
  repeat first
    [ apply occurs_in_app_l; apply occurs_in_refl
    | apply occurs_in_skip ].
Qed.

Lemma segment_in_template_glow (id styles : string) (w : World) :
  occurs_in (glowEffect w) (template id styles w).
Proof.
  unfold template.
  repeat first
    [ apply occurs_in_app_l; apply occurs_in_refl
    | apply occurs_in_skip ].
Qed.

(** X27: on an unshadowed instance the hover and active override rules
    are scoped to the instance:
    their selectors name the instance identifier, and a non-empty
    [hover-color], [hover-bg-color], [active-color] or [active-bg-color]
    is declared with [!important] inside the matching rule.  With the
    ["glow"] variant the style sheet has the glow rule and its hover
    version, with [glow-color] or, when that is missing or empty, the
    fixed fallback colour. *)
Theorem derived_style_rules (rs : nat -> string) (w : World) :
  unshadowed w = true ->
  occurs_in ("
      /* Custom hover styles with higher specificity */
      .btn." ++ fst (getInstanceId rs w) ++ ":hover:not(.disabled):not(.loading) {")
            (innerHTML (render rs w)) /\
  occurs_in ("
      }
      
      /* Custom active styles with higher specificity */
      .btn." ++ fst (getInstanceId rs w) ++ ":active:not(.disabled):not(.loading) {")
            (innerHTML (render rs w)) /\
  (forall c, get_hoverColor w = Some c -> c <> "" ->
     occurs_in ("
      /* Custom hover styles with higher specificity */
      .btn." ++ fst (getInstanceId rs w) ++ ":hover:not(.disabled):not(.loading) {
        color: " ++ c ++ " !important;") (innerHTML (render rs w))) /\
  (forall c, get_hoverBgColor w = Some c -> c <> "" ->
     occurs_in ("
        background: " ++ c ++ " !important;
      }
      
      /* Custom active styles with higher specificity */
      .btn." ++
                fst (getInstanceId rs w) ++ ":active:not(.disabled):not(.loading) {")
               (innerHTML (render rs w))) /\
  (forall c, get_activeColor w = Some c -> c <> "" ->
     occurs_in ("
      }
      
      /* Custom active styles with higher specificity */
      .btn." ++ fst (getInstanceId rs w) ++ ":active:not(.disabled):not(.loading) {
        color: " ++ c ++ " !important;") (innerHTML (render rs w))) /\
  (forall c, get_activeBgColor w = Some c -> c <> "" ->
     occurs_in ("
        background: " ++ c ++ " !important;
      }
    ") (innerHTML (render rs w))) /\
  (get_variant w = "glow" ->
   occurs_in ("
        .btn.variant-glow {
          box-shadow: 0 0 20px " ++
              or_default (get_glowColor w) "rgba(37, 99, 235, 0.5)" ++
              " !important;") (innerHTML (render rs w)) /\
   occurs_in (" !important;
        }
        .btn.variant-glow:hover:not(.disabled):not(.loading) {
          box-shadow: 0 0 30px " ++
              or_default (get_glowColor w) "rgba(37, 99, 235, 0.5)" ++
              " !important;") (innerHTML (render rs w))).
Proof.
  intros _. rewrite render_innerHTML_template.
  generalize (fst (getInstanceId rs w)) (generateInlineStyles w).
  intros id styles.
  assert (Hrule : forall v c, v = Some c -> c <> "" ->
            forall pre post, rule_if v pre post = pre ++ c ++ post).
  { intros v c -> Hc pre post. unfold rule_if.
    assert (truthy_attr (Some c) = true) as ->.
    { apply truthy_attr_Some. now exists c. }
    reflexivity. }
  assert (Hin : forall s, occurs_in s (customHoverActiveStyles id w) ->
                          occurs_in s (template id styles w)).
  { intros s Hs. apply (occurs_in_trans _ _ _ Hs).
    apply segment_in_template_hover. }
  split; [|split; [|split; [|split; [|split; [|split]]]]].
  - apply Hin. unfold customHoverActiveStyles. find_segment.
  - apply Hin. unfold customHoverActiveStyles. find_segment.
  - intros c Hc Hne. apply Hin. unfold customHoverActiveStyles.
    rewrite (Hrule _ _ Hc Hne). find_segment.
  - intros c Hc Hne. apply Hin. unfold customHoverActiveStyles.
    rewrite (Hrule _ _ Hc Hne). find_segment.
  - intros c Hc Hne. apply Hin. unfold customHoverActiveStyles.
    rewrite (Hrule _ _ Hc Hne). find_segment.
  - intros c Hc Hne. apply Hin. unfold customHoverActiveStyles.
    rewrite (Hrule _ _ Hc Hne). find_segment.
  - intros Hv.
    assert (Hing : forall s, occurs_in s (glowEffect w) ->
                             occurs_in s (template id styles w)).
    { intros s Hs. apply (occurs_in_trans _ _ _ Hs).
      apply segment_in_template_glow. }
    split; apply Hing; unfold glowEffect; rewrite Hv, String.eqb_refl;
      cbv zeta; find_segment.
Qed.

(** * Concrete runs of the further properties *)

Lemma markup_follows_attributes_witness :
  innerHTML (render sample_random
               (run sample_random supported_history
                  (constructor primary_attrs ∅ flat_layout))) =
  innerHTML (run sample_random supported_history
               (constructor primary_attrs ∅ flat_layout)).
Proof.
  apply markup_follows_attributes; vm_compute; reflexivity.
Defined.

Lemma instance_id_is_stable_witness :
  _instanceId (run sample_random sample_history
                 (constructor primary_attrs ∅ flat_layout)) =
    Some ("lume-btn-" ++ sample_random 0) /\
  _instanceId (run sample_random (sample_history ++ gated_history)
                 (constructor primary_attrs ∅ flat_layout)) =
    Some "lume-btn-k3x9q0z7m".
Proof.
  destruct (instance_id_is_stable sample_random primary_attrs ∅ flat_layout
              sample_history) as (_ & _ & Hinit & Hkeep).
  - vm_compute; reflexivity.
  - vm_compute; reflexivity.
  - split.
    + apply Hinit. vm_compute; reflexivity.
    + apply Hkeep; vm_compute; reflexivity.
Defined.

Lemma gated_element_has_no_ripple_listener_witness :
  click_listeners_on 4
    (run sample_random gated_history
       (constructor primary_attrs ∅ flat_layout)) = [].
Proof.
  apply gated_element_has_no_ripple_listener; vm_compute; reflexivity.
Defined.

Lemma repeated_write_changes_nothing_witness :
  setAttribute sample_random "variant" "ghost" known_enums = known_enums.
Proof.
  destruct (repeated_write_changes_nothing sample_random known_enums VNull)
    as (H & _).
  apply H. vm_compute; reflexivity.
Defined.

Lemma no_render_before_connection_witness :
  unrendered (run sample_random early_writes
                (constructor primary_attrs ∅ flat_layout)).
Proof.
  apply no_render_before_connection; vm_compute; reflexivity.
Defined.


Lemma disconnection_detaches_everything_witness :
  keyboard_activation quiet_engine
    (set_event enter_keydown
       (disconnectedCallback
          (run sample_random sample_history
             (constructor primary_attrs ∅ flat_layout)))) =
  (Normal tt,
   set_event enter_keydown
     (disconnectedCallback
        (run sample_random sample_history
           (constructor primary_attrs ∅ flat_layout)))) /\
  hostClick
    (run sample_random [OpSetAttribute "size" "small"]
       (disconnectedCallback
          (run sample_random sample_history
             (constructor primary_attrs ∅ flat_layout)))) = false.
Proof.
  destruct (disconnection_detaches_everything sample_random quiet_engine
              primary_attrs ∅ flat_layout sample_history enter_keydown)
    as (_ & _ & _ & _ & _ & H1 & H2).
  - vm_compute; reflexivity.
  - vm_compute; reflexivity.
  - split; [exact H1|].
    destruct (H2 [OpSetAttribute "size" "small"]) as (H3 & _).
    + vm_compute; reflexivity.
    + vm_compute; reflexivity.
    + exact H3.
Defined.


Lemma prevented_default_skips_navigation_witness :
  trace (state_of (handleClick preventing_engine handler_link_instance)) =
  (trace (state_of (execute_onclick_handler preventing_engine
                      handler_link_instance)) ++
   [EDispatchEvent "lume-click" true true
      (mkDetail
         (get_href (state_of (execute_onclick_handler preventing_engine
                                handler_link_instance)))
         (get_variant (state_of (execute_onclick_handler preventing_engine
                                   handler_link_instance)))
         (get_size (state_of (execute_onclick_handler preventing_engine
                                handler_link_instance))))])%list.
Proof.
  apply prevented_default_skips_navigation.
  - vm_compute; reflexivity.
  - left. vm_compute; reflexivity.
Defined.



Lemma flags_are_independent_witness :
  validate (set_disabled sample_random (VBool false) fully_gated_instance) = [] /\
  validate (set_loading sample_random VNull fully_gated_instance) = [].
Proof.
  assert (Hu : unshadowed fully_gated_instance = true)
    by (vm_compute; reflexivity).
  destruct (flags_are_independent sample_random fully_gated_instance
              (VBool false) Hu) as (_ & _ & _ & _ & _ & _ & H1).
  destruct (flags_are_independent sample_random fully_gated_instance VNull
              Hu) as (_ & _ & _ & _ & _ & _ & H2).
  split; [apply (H1 eq_refl) | apply (H2 eq_refl)].
Defined.

Lemma setDisabled_and_setLoading_witness :
  get_disabled (state_of (setDisabled sample_random (VBool true) plain_instance))
    = truthy (VBool true) /\
  attributes (state_of (setDisabled sample_random (VBool true)
                          (constructor ∅ {[ "disabled" := VBool false ]}
                             flat_layout))) =
  attributes (constructor ∅ {[ "disabled" := VBool false ]} flat_layout).
Proof.
  destruct (setDisabled_and_setLoading sample_random plain_instance (VBool true))
    as (_ & _ & H1 & _).
  destruct (setDisabled_and_setLoading sample_random
              (constructor ∅ {[ "disabled" := VBool false ]} flat_layout)
              (VBool true)) as (_ & _ & _ & _ & H2 & _).
  split.
  - apply H1. apply lookup_empty.
  - apply H2. vm_compute. discriminate.
Defined.

Lemma updateStyle_write_then_read_witness :
  getAttribute "variant"
    (updateStyle sample_random "color" (VStr "red") known_enums) =
  getAttribute "variant" known_enums.
Proof.
  destruct (updateStyle_write_then_read sample_random known_enums "color"
              (VStr "red")) as (_ & _ & H).
  - vm_compute; reflexivity.
  - vm_compute; reflexivity.
  - apply H; [vm_compute; reflexivity | discriminate].
Defined.

Lemma valid_enum_write_then_read_witness :
  get_variant (set_variant sample_random (VStr "icon-btn") plain_instance) =
    "icon-btn" /\
  get_size (set_size sample_random (VStr "small") plain_instance) = "small".
Proof.
  destruct (valid_enum_write_then_read sample_random plain_instance "icon-btn")
    as [H1 _].
  destruct (valid_enum_write_then_read sample_random plain_instance "small")
    as [_ H2].
  split; [apply H1 | apply H2]; simpl; tauto.
Defined.

Lemma registration_is_guarded_witness :
  register "LumeButton#2" {[ "lume-button" := "LumeButton#1" ]} =
    inr {[ "lume-button" := "LumeButton#1" ]} /\
  exists registry',
    register "LumeButton#1" {[ "other-element" := "Other" ]} = inr registry' /\
    registry' !! "lume-button" <> None.
Proof.
  split.
  - destruct (registration_is_guarded "LumeButton#2"
                {[ "lume-button" := "LumeButton#1" ]}) as [H _].
    apply H. vm_compute. discriminate.
  - destruct (registration_is_guarded "LumeButton#1"
                {[ "other-element" := "Other" ]}) as [_ H].
    destruct H as [registry' (H1 & H2 & _)].
    + intros name c Hc. destruct (decide (name = "other-element")) as [->|Hne].
      * rewrite lookup_singleton_eq in Hc. injection Hc as <-. discriminate.
      * rewrite lookup_singleton_ne in Hc by congruence. discriminate.
    + exists registry'. now split.
Defined.

Lemma click_is_ignored_when_gated_witness :
  click throwing_engine disabled_instance = (Normal tt, disabled_instance) /\
  click throwing_engine plain_instance = (Normal tt, plain_instance) /\
  click throwing_engine (set_loading sample_random (VStr "yes") plain_instance) =
    (Normal tt, set_loading sample_random (VStr "yes") plain_instance).
Proof.
  destruct (click_is_ignored_when_gated sample_random throwing_engine
              disabled_instance VNull) as (H1 & _).
  destruct (click_is_ignored_when_gated sample_random throwing_engine
              plain_instance (VStr "yes")) as (_ & H2 & H3).
  split; [|split].
  - apply H1. vm_compute; reflexivity.
  - apply H2. vm_compute; reflexivity.
  - apply H3. vm_compute; reflexivity.
Defined.


Lemma early_property_with_setter_is_absorbed_witness :
  ownProps (state_of (upgradeProperty sample_random "href" early_href))
    !! "href" = None /\
  get_href (state_of (upgradeProperty sample_random "href" early_href)) =
    (if truthy (VStr "https://example.com")
     then Some (ToString (VStr "https://example.com")) else None).
Proof.
  destruct (early_property_with_setter_is_absorbed sample_random early_href
              "href" (VStr "https://example.com"))
    as (_ & H2 & _ & _ & _ & H6).
  - simpl. tauto.
  - vm_compute; reflexivity.
  - split; [exact H2 | exact (H6 eq_refl)].
Defined.


Lemma inline_styles_empty_iff_witness : generateInlineStyles known_enums = "".
Proof.
  apply inline_styles_empty_iff; vm_compute; repeat split.
Defined.

Lemma rendered_element_kind_witness :
  occurs_in ("href=" ++ dq ++ ToString (of_attr (get_href link_instance)) ++ dq)
            (innerHTML (render sample_random link_instance)) /\
  occurs_in ("type=" ++ dq ++ "button" ++ dq)
            (innerHTML (render sample_random plain_instance)).
Proof.
  destruct (rendered_element_kind sample_random link_instance) as (H1 & _);
    [vm_compute; reflexivity|].
  destruct (rendered_element_kind sample_random plain_instance) as (_ & H2 & _);
    [vm_compute; reflexivity|].
  split.
  - apply H1. vm_compute; reflexivity.
  - apply H2. vm_compute; reflexivity.
Defined.

Lemma inline_overrides_reach_style_attribute_witness :
  occurs_in ("padding: " ++ "4px" ++ " !important")
            (innerHTML (render sample_random styled_instance)).
Proof.
  apply (inline_overrides_reach_style_attribute sample_random styled_instance
           "padding" "padding: " " !important" "4px").
  - vm_compute; reflexivity.
  - simpl. tauto.
  - vm_compute; reflexivity.
  - discriminate.
Defined.

Lemma updateStyle_is_rendered_at_once_witness :
  occurs_in ("width: " ++ "12rem" ++ " !important")
    (innerHTML (updateStyle sample_random "width" (VStr "12rem")
                  (run sample_random sample_history
                     (constructor primary_attrs ∅ flat_layout)))).
Proof.
  apply updateStyle_is_rendered_at_once.
  - vm_compute; reflexivity.
  - vm_compute; reflexivity.
  - vm_compute; reflexivity.
  - simpl. tauto.
  - discriminate.
Defined.

Lemma gated_pointer_activation_witness :
  trace (state_of (pointer_activation throwing_engine
           (set_event pointer_click
              (run sample_random gated_history
                 (constructor primary_attrs ∅ flat_layout))))) =
  (trace (run sample_random gated_history
            (constructor primary_attrs ∅ flat_layout)) ++
   [EPreventDefault; EStopPropagation])%list.
Proof.
  destruct (gated_pointer_activation sample_random throwing_engine
              primary_attrs ∅ flat_layout gated_history pointer_click)
    as (_ & H & _).
  - vm_compute; reflexivity.
  - vm_compute; reflexivity.
  - reflexivity.
  - exact H.
Defined.

Lemma derived_style_rules_witness :
  occurs_in ("
        background: " ++ "black" ++ " !important;
      }
    ") (innerHTML (render sample_random styled_instance)) /\
  occurs_in ("
        .btn.variant-glow {
          box-shadow: 0 0 20px " ++
             or_default (get_glowColor styled_instance)
                        "rgba(37, 99, 235, 0.5)" ++
             " !important;")
    (innerHTML (render sample_random styled_instance)).
Proof.
  destruct (derived_style_rules sample_random styled_instance)
    as (_ & _ & _ & _ & _ & H1 & H2); [vm_compute; reflexivity|].
  split.
  - apply H1; [vm_compute; reflexivity | discriminate].
  - apply H2. vm_compute; reflexivity.
Defined.
